(** * covid_model_deaths_spline: holdout ensemble, continuity guard and
      infection derivation

    A shallow embedding of [src/covid_model_deaths_spline/models.py] and of the
    post-model part of [src/covid_model_deaths_spline/runner.py], with the
    properties the specification states about them.

    Conventions of the embedding.
    - Python [int] is [Z].  [int(a / b)] on ints is the quotient truncated
      toward zero; the source computes the quotient in binary64, which agrees
      with the exact quotient for operands below 2^53, the only range in which
      a draw budget can be materialised.
    - A float cell is [option Qc]: [None] is NaN, [Some q] a finite value with
      exact arithmetic (rounding is outside the embedding).
    - A numpy scalar keeps its type where the source formats it into a column
      label: [np.sum] of an empty list is the float [0.0].
    - A date is a day number in [Z]; a [Timedelta] in days is a [Z].
    - A raised exception is the [Raise] case of [result]. *)

From Stdlib Require Import QArith Qcanon Ascii DecimalString DecimalZ.
From stdpp Require Import gmap strings list fin_maps sorting.

Local Open Scope string_scope.
Local Open Scope list_scope.
Local Open Scope Z_scope.

(** ** Exceptions *)

Inductive exn : Type :=
  | ZeroDivisionError
  | IndexError
  | KeyError (label : string)
  | ValueError (msg : string)
  | TypeError
  | ReferenceError.

Inductive result (A : Type) : Type :=
  | Ok (a : A)
  | Raise (e : exn).
Arguments Ok {A} a.
Arguments Raise {A} e.

Global Instance result_ret : MRet result := λ A a, Ok a.
Global Instance result_bind : MBind result := λ A B k r,
  match r with
  | Ok a => k a
  | Raise e => Raise e
  end.

(** Stateful code that may raise: the state is threaded through, an exception
    ends the run. *)
Definition ST (S A : Type) : Type := S → result (A * S).

Global Instance ST_ret {S} : MRet (ST S) := λ A a σ, Ok (a, σ).
Global Instance ST_bind {S} : MBind (ST S) := λ A B k m σ,
  match m σ with
  | Ok (a, σ') => k a σ'
  | Raise e => Raise e
  end.

Definition lift {S A} (r : result A) : ST S A := λ σ,
  match r with
  | Ok a => Ok (a, σ)
  | Raise e => Raise e
  end.

(** ** Floats *)

Module Float.

Definition float : Type := option Qc.

Definition nan : float := None.
Definition of_Z (z : Z) : float := Some (Q2Qc (inject_Z z)).

Definition isnan (x : float) : bool :=
  match x with
  | None => true
  | Some _ => false
  end.

Definition mul (x y : float) : float :=
  match x, y with
  | Some a, Some b => Some (a * b)%Qc
  | _, _ => None
  end.

Definition sub (x y : float) : float :=
  match x, y with
  | Some a, Some b => Some (a - b)%Qc
  | _, _ => None
  end.


End Float.
Export Float.

(** ** Python and numpy helpers *)

(** [int(a / b)] for ints. *)
Definition int_truediv (a b : Z) : result Z :=
  if decide (b = 0) then Raise ZeroDivisionError else Ok (Z.quot a b).

(** [[x] * k]: a non-positive [k] gives the empty list. *)
Definition list_mul {A} (x : A) (k : Z) : list A := replicate (Z.to_nat k) x.

(** The sum of the items, as a number. *)
Definition total (l : list Z) : Z := foldr Z.add 0 l.

(** A numpy scalar as lines 103 and 111-113 meet it: an int64, or a float64
    that holds an integer. *)
Inductive np_scalar : Type :=
  | np_int64 (z : Z)
  | np_float64 (z : Z).

Definition scalar_value (x : np_scalar) : Z :=
  match x with
  | np_int64 z => z
  | np_float64 z => z
  end.

(** [np.sum(l)] for a list of ints.  numpy turns the list into an array first:
    a list with items becomes an int64 array, whose sum is an int64; the empty
    list becomes an empty float64 array, whose sum is the float [0.0]. *)
Definition np_sum (l : list Z) : np_scalar :=
  match l with
  | [] => np_float64 0
  | _ :: _ => np_int64 (total l)
  end.

(** [d + c] for an int64 [d]: an int64 when [c] is one, a float64 when [c] is
    a float64. *)
Definition np_add (d : Z) (c : np_scalar) : np_scalar :=
  match c with
  | np_int64 z => np_int64 (d + z)
  | np_float64 z => np_float64 (d + z)
  end.

(** [f'{x}']: an int64 prints as its decimal digits, a float64 that holds an
    integer (below 10^16) as those digits followed by [.0]. *)
Definition format (x : np_scalar) : string :=
  match x with
  | np_int64 z => NilEmpty.string_of_int (Z.to_int z)
  | np_float64 z => NilEmpty.string_of_int (Z.to_int z) +:+ ".0"
  end.

(** [np.arange(n)]. *)
Definition np_arange (n : Z) : list Z := seqZ 0 n.

(** [l[-1] += v]. *)
Definition iadd_last (l : list Z) (v : Z) : result (list Z) :=
  match l with
  | [] => Raise IndexError
  | _ => Ok (alter (λ x, x + v) (Nat.pred (length l)) l)
  end.

(** [dict(pairs)]: a later pair overrides an earlier one with the same key. *)
Definition dict (pairs : list (string * string)) : gmap string string :=
  foldl (λ m p, <[p.1 := p.2]> m) ∅ pairs.

(** [f'draw_{d}'] for an int [d]. *)
Definition draw_col (d : Z) : string := "draw_" +:+ format (np_int64 d).

(** ** models.py, lines 101-104: the draw allocation

    Where the subscript of line 103 succeeds the list has items, so the sum is
    an int64 and the last entry stays an integer. *)

Definition iteration_n_draws (doy_holdouts n_draws : Z) : result (list Z) :=
  let doy_holdouts := doy_holdouts + 1 in
  base ← int_truediv n_draws doy_holdouts ;
  let iteration_n_draws := list_mul base doy_holdouts in
  iadd_last iteration_n_draws
            (n_draws - scalar_value (np_sum iteration_n_draws)).


(** ** models.py, lines 110-118: draw column renaming

    [i] enumerates [results], which has one entry per entry of
    [iteration_n_draws], so [iteration_n_draws[i]] is always in range; [nth]
    reads it, with no draws out of range. *)

Definition nth (l : list Z) (i : nat) : Z := default 0 (l !! i).

(** Line 111: [np.sum(iteration_n_draws[:i])]. *)
Definition col_add (iteration_n_draws : list Z) (i : nat) : np_scalar :=
  np_sum (take i iteration_n_draws).

(** Line 112. *)
Definition cols (iteration_n_draws : list Z) (i : nat) : list string :=
  (λ d, draw_col d) <$> np_arange (nth iteration_n_draws i).

(** Line 113: [f'draw_{d + col_add}']. *)
Definition new_cols (iteration_n_draws : list Z) (i : nat) : list string :=
  (λ d, "draw_" +:+ format (np_add d (col_add iteration_n_draws i)))
    <$> np_arange (nth iteration_n_draws i).

(** The global draw ids iteration [i] is given, as numbers. *)
Definition global_ids (iteration_n_draws : list Z) (i : nat) : list Z :=
  (λ d, scalar_value (np_add d (col_add iteration_n_draws i)))
    <$> np_arange (nth iteration_n_draws i).

Definition renamer (iteration_n_draws : list Z) (i : nat) : gmap string string :=
  dict (zip (cols iteration_n_draws i) (new_cols iteration_n_draws i)).

(** [rename(columns=m)] on one column label. *)
Definition rename_label (m : gmap string string) (c : string) : string :=
  default c (m !! c).

(** ** pandas frames

    A frame is column-major, as in pandas.  Its identifying columns
    ([location_id], [location_name], [Date]) are kept per row in [df_index];
    every other column is a float column, addressed by its label.  Column labels
    are assumed distinct; a lookup takes the first column with the label. *)

Record Key : Type := mkKey {
  key_location_id : Z;
  key_location_name : string;
  key_Date : Z
}.

Record DataFrame : Type := mkDF {
  df_index : list Key;
  df_columns : list (string * list float)
}.

Definition columns (df : DataFrame) : list string := fst <$> df_columns df.

(** [df[c]]. *)
Definition df_getitem (c : string) (df : DataFrame) : result (list float) :=
  match list_find (λ p, p.1 = c) (df_columns df) with
  | Some (_, (_, a)) => Ok a
  | None => Raise (KeyError c)
  end.

(** [df[c] = a]: replaces the column labelled [c], or appends a new one. *)
Definition df_setitem (c : string) (a : list float) (df : DataFrame) : DataFrame :=
  match list_find (λ p, p.1 = c) (df_columns df) with
  | Some (i, _) => mkDF (df_index df) (<[i := (c, a)]> (df_columns df))
  | None => mkDF (df_index df) (df_columns df ++ [(c, a)])
  end.

(** [itertools.compress]; also a boolean-mask selection of rows. *)
Fixpoint compress {A} (l : list A) (mask : list bool) : list A :=
  match l, mask with
  | x :: l, b :: mask => if b then x :: compress l mask else compress l mask
  | _, _ => []
  end.

(** [df.loc[mask]]: a new frame with the rows where [mask] holds. *)
Definition df_loc_rows (mask : list bool) (df : DataFrame) : DataFrame :=
  mkDF (compress (df_index df) mask)
       (prod_map id (λ a, compress a mask) <$> df_columns df).

(** [df[cs].isnull().all(axis=1)], row by row. *)
Definition isnull_all (arrays : list (list float)) (nrows : nat) : list bool :=
  foldr (λ a acc, zip_with andb (isnan <$> a) acc) (replicate nrows true) arrays.

(** [df.rename(columns=m)]. *)
Definition df_rename (m : gmap string string) (df : DataFrame) : DataFrame :=
  mkDF (df_index df) (prod_map (rename_label m) id <$> df_columns df).

(** [del df[c]]. *)
Definition df_delitem (c : string) (df : DataFrame) : result DataFrame :=
  match list_find (λ p, p.1 = c) (df_columns df) with
  | Some (i, _) => Ok (mkDF (df_index df) (delete i (df_columns df)))
  | None => Raise (KeyError c)
  end.

(** ** numpy arrays: the kernel of [drop_days_by_indicator]

    The rows of a location are in date order ([make_deaths] sorts by
    location and date before it pickles the frame, line 76), so the last
    positions of a column are its most recent dates. *)

(** [np.argwhere(~np.isnan(data))]: the positions of the non-NaN cells,
    ascending. *)
Definition argwhere_notnan (data : list float) : list nat :=
  (λ p, p.1) <$> filter (λ p, isnan p.2 = false) (imap (λ i x, (i, x)) data).

(** [l[-h:]] for [h > 0]: the last [h] items, all of them when there are
    fewer. *)
Definition slice_last {A} (h : Z) (l : list A) : list A :=
  drop (length l - Z.to_nat h)%nat l.

(** [data[idx] = np.nan]. *)
Definition setitem_nan (idx : list nat) (data : list float) : list float :=
  foldr (λ i d, <[i := nan]> d) data idx.

(** Lines 23-25 on the array itself. *)
Definition drop_days (data : list float) (doy_holdout : Z) : list float :=
  if decide (0 < doy_holdout) then
    let drop_idx := slice_last doy_holdout (argwhere_notnan data) in
    setitem_nan drop_idx data
  else data.

(** The labels of the identifying columns, which [df_index] holds. *)
Definition key_labels : list string := ["location_id"; "location_name"; "Date"].

(** [df.loc[:, cs]]: the listed columns, in the listed order. *)
Definition df_loc_cols (cs : list string) (df : DataFrame) : result DataFrame :=
  arrays ← mapM (λ c, a ← df_getitem c df; mret (c, a))
                (filter (λ c, c ∉ key_labels) cs);
  mret (mkDF (df_index df) arrays).

(** [functools.reduce(f, x :: l)] for a fallible [f]. *)
Definition reduce {A} (f : A → A → result A) (x : A) (l : list A) : result A :=
  foldl (λ acc y, a ← acc; f a y) (Ok x) l.

(** The effect of lines 23-25 on the array with the depth as a natural
    number: the last [h] non-NaN positions are set to NaN. *)
Definition blank (h : nat) (data : list float) : list float :=
  setitem_nan (drop (length (argwhere_notnan data) - h)%nat (argwhere_notnan data))
              data.

(** ** models.py *)

Module Models.

Record RESULTS : Type := mkRESULTS {
  model_data : DataFrame;
  noisy_draws : DataFrame;
  smooth_draws : DataFrame
}.

Definition indicators : list string :=
  ["Death rate"; "Confirmed case rate"; "Hospitalization rate"].

Definition keep_cols : list string :=
  ["location_id"; "location_name"; "Date";
   "Confirmed case rate"; "Hospitalization rate"; "Death rate";
   "Predicted death rate (CFR)"; "Predicted death rate (HFR)"; "population"].

(** The number of non-missing observations of a channel. *)
Definition count_notnan (data : list float) : nat :=
  length (filter (λ x, isnan x = false) data).

(** Lines 36-37 as a function of the frame's contents: every indicator column
    is replaced by its blanked cells, one column after the other. *)
Definition blank_step (doy_holdout : Z) (acc : result DataFrame)
    (indicator : string) : result DataFrame :=
  df ← acc;
  a ← df_getitem indicator df;
  mret (df_setitem indicator (drop_days a doy_holdout) df).

Definition blank_indicators (df : DataFrame) (doy_holdout : Z) : result DataFrame :=
  foldl (blank_step doy_holdout) (Ok df) indicators.

(** Line 38 as a function of the frame's contents. *)
Definition drop_null_rows (df : DataFrame) : result DataFrame :=
  arrays ← mapM (λ c, df_getitem c df) indicators;
  mret (df_loc_rows (negb <$> isnull_all arrays (length (df_index df))) df).

(** Lines 34-38 as a function of the contents of the frame passed in. *)
Definition blanked_input (df : DataFrame) (doy_holdout : Z) : result DataFrame :=
  df ← blank_indicators df doy_holdout;
  drop_null_rows df.

Section WithCollaborators.

(** The collaborators that are not part of the two source files: the state of
    numpy's global random generator, the first-stage model, the smoother and
    [pd.merge(x, y, how='outer')].  The two models are called with freshly
    built frames only; they may consume randomness and may fail. *)
Context {RNG CfrSettings SmootherSettings : Type}.
Variable np_random_seed : Z → RNG.
Variable cfr_model :
  DataFrame → CfrSettings → RNG → result (DataFrame * RNG).
Variable synthesize_time_series :
  DataFrame → Z → Z → SmootherSettings → RNG →
  result ((DataFrame * DataFrame) * RNG).
Variable pd_merge_outer : DataFrame → DataFrame → result DataFrame.

Record Settings : Type := mkSettings {
  CFR : CfrSettings;
  HFR : CfrSettings;
  smoother : SmootherSettings;
  no_cases_locs : list Z;
  no_hosp_locs : list Z
}.

(** *** The object store

    Frames are mutable objects; a variable holds a reference.  A [Series]
    taken from a frame and the array under it are views on one column of
    that frame. *)

Definition loc : Type := positive.

Record state : Type := mkState {
  heap : gmap positive DataFrame;
  rng : RNG
}.

(** Code that works on the store. *)
Abbreviation M := (ST state).

Definition alloc (df : DataFrame) : M loc := λ σ,
  let l := fresh (dom (heap σ)) in
  Ok (l, mkState (<[l := df]> (heap σ)) (rng σ)).

Definition deref (l : loc) : M DataFrame := λ σ,
  match heap σ !! l with
  | Some df => Ok (df, σ)
  | None => Raise ReferenceError
  end.

Definition update (l : loc) (f : DataFrame → DataFrame) : M unit := λ σ,
  match heap σ !! l with
  | Some df => Ok ((), mkState (<[l := f df]> (heap σ)) (rng σ))
  | None => Raise ReferenceError
  end.

(** A call of a collaborator: it sees and advances the generator only. *)
Definition call {A} (f : RNG → result (A * RNG)) : M A := λ σ,
  match f (rng σ) with
  | Ok (a, g) => Ok (a, mkState (heap σ) g)
  | Raise e => Raise e
  end.

Definition view : Type := loc * string.

Definition read_array (v : view) : M (list float) :=
  df ← deref v.1; lift (df_getitem v.2 df).

Definition write_array (v : view) (a : list float) : M unit :=
  update v.1 (df_setitem v.2 a).

(** [df.copy()]: a new object with the same contents. *)
Definition copy (l : loc) : M loc := df ← deref l; alloc df.

(** [df[c]] and [series.values]: views on the column. *)
Definition getitem (l : loc) (c : string) : M view :=
  _ ← read_array (l, c); mret (l, c).
Definition values (s : view) : M view := mret s.

(** [df[c] = data] for an array [data]. *)
Definition setitem (l : loc) (c : string) (data : view) : M unit :=
  a ← read_array data; update l (df_setitem c a).

(** *** Lines 21-27 *)
Definition drop_days_by_indicator (data : view) (doy_holdout : Z) : M view :=
  data ← values data;
  _ ← (if decide (0 < doy_holdout) then
         a ← read_array data;
         let drop_idx := slice_last doy_holdout (argwhere_notnan a) in
         write_array data (setitem_nan drop_idx a)
       else mret ());
  mret data.

(** *** Lines 40-72, on the frame left by the blanking *)
(** Code that sees the random generator only. *)
Abbreviation E := (ST RNG).

Definition nrows (df : DataFrame) : nat := length (df_index df).

Definition stages (location_id : Z) (model_data : DataFrame)
    (model_settings : Settings) (doy_holdout n_draws : Z) : E RESULTS :=
  (* first stage model(s) *)
  cfr_list ←
    (if decide (location_id ∈ no_cases_locs model_settings) then mret []
     else
       cfr_model_data ← cfr_model model_data (CFR model_settings);
       x ← lift (df_loc_cols
                    ["location_id"; "location_name"; "Date";
                     "Confirmed case rate"; "Death rate";
                     "Predicted death rate (CFR)"; "population"]
                    cfr_model_data);
       mret [x]);
  hfr_list ←
    (if decide (location_id ∈ no_hosp_locs model_settings) then mret []
     else
       hfr_model_data ← cfr_model model_data (HFR model_settings);
       x ← lift (df_loc_cols
                    ["location_id"; "location_name"; "Date";
                     "Hospitalization rate"; "Death rate";
                     "Predicted death rate (HFR)"; "population"]
                    hfr_model_data);
       mret [x]);
  let model_data_list := cfr_list ++ hfr_list in
  (* combine outputs if any *)
  model_data ←
    match model_data_list with
    | [] => mret model_data
    | x :: l => lift (reduce pd_merge_outer x l)
    end;
  let model_data :=
    foldl (λ df col,
             if decide (col ∈ key_labels ++ columns df) then df
             else df_setitem col (replicate (nrows df) nan) df)
          model_data keep_cols in
  model_data ← lift (df_loc_cols keep_cols model_data);
  (* second stage model *)
  draws ← synthesize_time_series model_data doy_holdout n_draws
            (smoother model_settings);
  let model_data :=
    df_setitem "doy_holdout" (replicate (nrows model_data) (of_Z doy_holdout))
               model_data in
  mret (mkRESULTS model_data draws.1 draws.2).

(** *** Line 37, the body of the loop over the indicators:
    [model_data[indicator] =
       drop_days_by_indicator(model_data[indicator], doy_holdout)] *)
Definition loop_body (model_data : loc) (doy_holdout : Z) (indicator : string) :
    M unit :=
  s ← getitem model_data indicator;
  data ← drop_days_by_indicator s doy_holdout;
  setitem model_data indicator data.

(** *** Lines 30-72 *)
Definition model_iteration (location_id : Z) (model_data : loc)
    (model_settings : Settings) (doy_holdout n_draws : Z) : M RESULTS :=
  (* drop days *)
  model_data ← copy model_data;
  _ ← mapM (loop_body model_data doy_holdout) indicators;
  df ← deref model_data;
  arrays ← lift (mapM (λ c, df_getitem c df) indicators);
  model_data ← alloc (df_loc_rows (negb <$> isnull_all arrays (nrows df)) df);
  df ← deref model_data;
  call (stages location_id df model_settings doy_holdout n_draws).

(** One iteration and the whole ensemble as functions of the contents of the
    frame [run_models] starts from: each depth blanks that same frame. *)
Definition iteration_on (location_id : Z) (df : DataFrame)
    (model_settings : Settings) (doy_holdout n_draws : Z) : E RESULTS :=
  blanked ← lift (blanked_input df doy_holdout);
  stages location_id blanked model_settings doy_holdout n_draws.

Definition ensemble_on (location_id : Z) (df : DataFrame)
    (model_settings : Settings) (plan : list (Z * Z)) : E (list RESULTS) :=
  mapM (λ hd, iteration_on location_id df model_settings hd.1 hd.2) plan.

(** *** Lines 110-121: the renamed draw tables of all iterations *)
Definition rename_draws (iteration_n_draws : list Z)
    (draws : list DataFrame) : list DataFrame :=
  imap (λ i df, df_rename (renamer iteration_n_draws i) df) draws.

(** *** Lines 132-135, for one draw table:
    [draws[draw_cols] = draws[draw_cols] * draws[['population']].values]
    and [del draws['population']] *)
Definition rescale (draw_cols : list string) (draws : DataFrame) :
    result DataFrame :=
  selected ← mapM (λ c, df_getitem c draws) draw_cols;
  population ← df_getitem "population" draws;
  let scaled := (λ a, zip_with mul a population) <$> selected in
  let draws :=
    foldl (λ df ca, df_setitem ca.1 ca.2 df) draws (zip draw_cols scaled) in
  df_delitem "population" draws.

(** *** Line 106: the holdout iterations, all on the same [model_data] *)
Definition run_iterations (location_id : Z) (model_data : loc)
    (model_settings : Settings) (plan : list (Z * Z)) : M (list RESULTS) :=
  mapM (λ hd, model_iteration location_id model_data model_settings hd.1 hd.2)
       plan.

(** *** Lines 107-135: the results of the iterations put together.  Plotting
    (line 126) works on copies, and lines 130-131 rename the label of the date
    column, which the embedding keeps in the index. *)
Definition assemble (iteration_n_draws : list Z) (results : list RESULTS) :
    result RESULTS :=
  model_data ← match results with
               | r :: _ => Ok (model_data r)
               | [] => Raise IndexError
               end;
  let noisy_draws :=
    rename_draws iteration_n_draws (noisy_draws <$> results) in
  let smooth_draws :=
    rename_draws iteration_n_draws (smooth_draws <$> results) in
  noisy_draws ← match noisy_draws with
                | x :: l => reduce pd_merge_outer x l
                | [] => Raise TypeError
                end;
  smooth_draws ← match smooth_draws with
                 | x :: l => reduce pd_merge_outer x l
                 | [] => Raise TypeError
                 end;
  let draw_cols :=
    filter (λ col, String.prefix "draw_" col = true) (columns smooth_draws) in
  noisy_draws ← rescale draw_cols noisy_draws;
  smooth_draws ← rescale draw_cols smooth_draws;
  mret (mkRESULTS model_data noisy_draws smooth_draws).

(** Line 95: [model_data.loc[model_data['location_id'] == location_id]]. *)
Definition select_location (location_id : Z) (data : DataFrame) : DataFrame :=
  df_loc_rows
    ((λ k, bool_decide (key_location_id k = location_id)) <$> df_index data)
    data.

(** *** Lines 87-141.  [data] is the frame unpickled from [data_path],
    [model_settings] the parsed settings file; the value returned is the one
    pickled to the results directory. *)
Definition run_models (location_id : Z) (data : DataFrame)
    (model_settings : Settings) (doy_holdouts n_draws : Z) : result RESULTS :=
  let body : M RESULTS :=
    (* load inputs *)
    model_data ← alloc (select_location location_id data);
    (* run models *)
    iteration_n_draws ← lift (iteration_n_draws doy_holdouts n_draws);
    let doy_holdouts := np_arange (doy_holdouts + 1) in
    results ← run_iterations location_id model_data model_settings
                (zip doy_holdouts iteration_n_draws);
    lift (assemble iteration_n_draws results) in
  (* set seed *)
  match body (mkState ∅ (np_random_seed location_id)) with
  | Ok (r, _) => Ok r
  | Raise e => Raise e
  end.

End WithCollaborators.

(** *** Lines 62-64 for themselves: every kept column the frame lacks is added,
    all NaN ([stages] runs this loop between the merge and line 65) *)
Definition fill_missing (model_data : DataFrame) : DataFrame :=
  foldl (λ df col,
           if decide (col ∈ key_labels ++ columns df) then df
           else df_setitem col (replicate (nrows df) nan) df)
        model_data keep_cols.

(** *** Lines 75-84: what [plot_ensemble] asks the plotter for.  [df] is the
    frame [summarize.append_summary_statistics] returned; the spline variables
    are value columns of it. *)

(** Line 81: [[obs_var] + list(compress(spline_vars,
    (~df[spline_vars].isnull().all(axis=0)).to_list()))]. *)
Definition plot_vars (df : DataFrame) (obs_var : string)
    (spline_vars : list string) : result (list string) :=
  arrays ← mapM (λ c, df_getitem c df) spline_vars;
  let all_null := forallb isnan <$> arrays in
  mret ([obs_var] ++ compress spline_vars (negb <$> all_null)).

(** Line 83: [f'{plot_dir}/{location_id}.pdf']. *)
Definition plot_path (plot_dir : string) (location_id : Z) : string :=
  plot_dir +:+ "/" +:+ format (np_int64 location_id) +:+ ".pdf".

End Models.

(** ** runner.py: the post-model part of [make_deaths] *)

Module Runner.


(** A draw table indexed by [(location_id, date)]: [header] labels the value
    columns and every row holds one cell per label. *)
Record Row : Type := mkRow {
  location_id : Z;
  date : Z;
  cells : list float
}.


(** A [Series] indexed by location id lists its entries by ascending
    label. *)
Definition label_le {A} (a b : Z * A) : Prop := a.1 ≤ b.1.

Global Instance label_le_dec {A} : RelDecision (@label_le A).
Proof. intros a b. unfold label_le. apply _. Defined.

Definition items {A} (s : gmap Z A) : list (Z * A) :=
  merge_sort label_le (map_to_list s).

(** [rows.groupby('location_id')['date'].min()] and [.max()], with [agg] the
    reduction. *)
Definition groupby_date (agg : Z → Z → Z) (rows : list Row) : gmap Z Z :=
  foldr (λ r m,
           <[location_id r :=
               match m !! location_id r with
               | Some d => agg (date r) d
               | None => date r
               end]> m)
        ∅ rows.

(** [a - b] on two series: aligned on the union of the indexes, missing where
    either side has no entry. *)
Definition series_sub (a b : gmap Z Z) : gmap Z (option Z) :=
  merge (λ x y,
           match x, y with
           | Some x, Some y => Some (Some (x - y))
           | None, None => None
           | _, _ => Some None
           end) a b.

(** [s.loc[s.notnull()]]. *)
Definition notnull (s : gmap Z (option Z)) : gmap Z Z := omap id s.

(** [s.to_csv(path, index=index)]: one record per entry, the index label
    first when [index] is set. *)
Definition to_csv (index : bool) (s : gmap Z Z) : list (list Z) :=
  (λ kv, if index then [kv.1; kv.2] else [kv.2]) <$> items s.

(** *** Lines 159-178 *)

Definition isnull_any (r : Row) : bool := existsb isnan (cells r).

Definition date_diffs (smooth_draws : list Row) : gmap Z Z :=
  let nan_rows := isnull_any <$> smooth_draws in
  let smooth_draws_nans := compress smooth_draws nan_rows in
  let smooth_draws := compress smooth_draws (negb <$> nan_rows) in
  let nan_min := groupby_date Z.min smooth_draws_nans in
  let val_max := groupby_date Z.max smooth_draws in
  notnull (series_sub nan_min val_max).

Inductive outcome : Type :=
  | Continue (smooth_draws : list Row) (nan_locations : list Z)
  | Fatal (nan_locations : list Z) (problem_location_report : list (list Z))
          (e : exn).

Definition continuity_guard (smooth_draws : list Row) : outcome :=
  let nan_rows := isnull_any <$> smooth_draws in
  let smooth_draws_nans := compress smooth_draws nan_rows in
  match smooth_draws_nans with
  | [] => Continue smooth_draws []
  | _ :: _ =>
      let kept := compress smooth_draws (negb <$> nan_rows) in
      let date_diffs := date_diffs smooth_draws in
      let nan_locations := (items date_diffs).*1 in
      if existsb (λ kv, bool_decide (kv.2 < 0)) (items date_diffs) then
        Fatal nan_locations (to_csv false date_diffs)
          (ValueError
             "Dropping NaNs in middle of time series (see problem_location_report.csv)")
      else Continue kept nan_locations
  end.

Definition nan_locations_of (o : outcome) : list Z :=
  match o with
  | Continue _ m => m
  | Fatal m _ _ => m
  end.

Definition aborts (o : outcome) : Prop :=
  match o with
  | Continue _ _ => False
  | Fatal _ _ _ => True
  end.

(** The dates of the NaN rows and of the non-NaN rows of a location, and the
    gap of the specification: the earliest NaN date minus the latest non-NaN
    date, for a location that has both kinds of rows. *)
Definition nan_dates (smooth_draws : list Row) (l : Z) : list Z :=
  date <$> filter (λ r, location_id r = l ∧ isnull_any r = true) smooth_draws.

Definition value_dates (smooth_draws : list Row) (l : Z) : list Z :=
  date <$> filter (λ r, location_id r = l ∧ isnull_any r = false) smooth_draws.

Definition is_min (d : Z) (ds : list Z) : Prop := d ∈ ds ∧ ∀ x, x ∈ ds → d ≤ x.
Definition is_max (d : Z) (ds : list Z) : Prop := d ∈ ds ∧ ∀ x, x ∈ ds → x ≤ d.

Definition gap (smooth_draws : list Row) (l : Z) (g : Z) : Prop :=
  ∃ dn dv, is_min dn (nan_dates smooth_draws l)
           ∧ is_max dv (value_dates smooth_draws l)
           ∧ g = dn - dv.

(** *** Lines 191-198 *)

(** [aggregate.Location]. *)
Record Location : Type := mkLocation {
  id : Z;
  name : string
}.

Section Aggregates.

(** [aggregate.compute_location_aggregates_data] and
    [aggregate.compute_location_aggregates_draws] are not part of the two
    source files. *)
Context {Hierarchy : Type}.
Variable compute_location_aggregates_data :
  DataFrame → Hierarchy → list Location → DataFrame.
Variable compute_location_aggregates_draws :
  DataFrame → Hierarchy → list Location → DataFrame.

(** [df['location_id'] = -df['location_id']]. *)
Definition negate_location_id (df : DataFrame) : DataFrame :=
  mkDF ((λ k, mkKey (- key_location_id k) (key_location_name k) (key_Date k))
          <$> df_index df)
       (df_columns df).

(** [df['location_name'] = df['location_name'] + suffix]. *)
Definition append_location_name (suffix : string) (df : DataFrame) : DataFrame :=
  mkDF ((λ k, mkKey (key_location_id k) (key_location_name k +:+ suffix)
                    (key_Date k))
          <$> df_index df)
       (df_columns df).

(** The two frames handed to [summarize.summarize_and_plot]. *)
Definition post_model_aggregates (model_data smooth_draws : DataFrame)
    (hierarchy : Hierarchy) (agg_locations : list Location) :
    DataFrame * DataFrame :=
  let agg_locations := [mkLocation 1 "Global"] ++ agg_locations in
  let agg_model_data :=
    compute_location_aggregates_data model_data hierarchy agg_locations in
  let agg_model_data := negate_location_id agg_model_data in
  let agg_model_data := append_location_name " (model aggregate)" agg_model_data in
  let agg_draw_df :=
    compute_location_aggregates_draws smooth_draws hierarchy agg_locations in
  let agg_draw_df := negate_location_id agg_draw_df in
  (agg_draw_df, agg_model_data).

End Aggregates.

(** *** Lines 227-236 *)


(** [smooth_draws.sort_index()] on the [(location_id, date)] index. *)
Definition key_le (a b : Row) : Prop :=
  location_id a < location_id b
  ∨ (location_id a = location_id b ∧ date a ≤ date b).

Global Instance key_le_dec : RelDecision key_le.
Proof. intros a b. unfold key_le. apply _. Defined.






(** *** Lines 22, 123-129 and 140-146: the jobs launched and the locations
    reported as failed *)

Definition PARENT_MODEL_LOCATIONS : list Z := [189].

(** [series.unique()]: the distinct values, in the order they first appear. *)
Fixpoint unique (l : list Z) : list Z :=
  match l with
  | [] => []
  | x :: l => x :: filter (λ y, y ≠ x) (unique l)
  end.

(** The keys of [job_args_map], in the order of the dict. *)
Definition job_locations (model_data : DataFrame) : list Z :=
  filter (λ location_id, location_id ∉ PARENT_MODEL_LOCATIONS)
         (unique (key_location_id <$> df_index model_data)).

(** Lines 140-145; [hierarchy] is [hierarchy['location_id'].to_list()]. *)
Definition failed_model_locations (model_data post_model_data : DataFrame)
    (hierarchy : list Z) : list Z :=
  let post := key_location_id <$> df_index post_model_data in
  let failed_model_locations :=
    unique (filter (λ l, l ∉ post) (key_location_id <$> df_index model_data)) in
  let failed_model_locations :=
    filter (λ l, l ∉ PARENT_MODEL_LOCATIONS) failed_model_locations in
  filter (λ l, l ∈ hierarchy) failed_model_locations.

(** *** Lines 202-210: the plots handed to the pdf merger *)

(** [s.split(sep)] for a one-character separator. *)
Fixpoint split (sep : ascii) (s : string) : list string :=
  match s with
  | EmptyString => [EmptyString]
  | String c s =>
      if Ascii.eqb c sep then EmptyString :: split sep s
      else match split sep s with
           | w :: ws => String c w :: ws
           | [] => [String c EmptyString]
           end
  end.

(** [str(x).split('/')[-1]]. *)
Definition basename (x : string) : string :=
  default EmptyString (last (split "/"%char x)).

(** Lines 203-205.  [locations] is [plot_hierarchy.location_id], [files] the
    paths of the files [plot_dir.iterdir()] yields. *)
Definition deaths_pdfs (plot_dir : string) (locations : list Z)
    (files : list string) : list string :=
  let possible_deaths_pdfs :=
    ["-1_deaths.pdf"]
      ++ ((λ l, format (np_int64 l) +:+ "_deaths.pdf") <$> locations) in
  let existing_deaths_pdfs := basename <$> files in
  (λ pdf, plot_dir +:+ "/" +:+ pdf)
    <$> filter (λ pdf, pdf ∈ existing_deaths_pdfs) possible_deaths_pdfs.

(** Lines 207-209. *)
Definition infections_pdfs (plot_dir : string) (locations : list Z)
    (files : list string) : list string :=
  let possible_infections_pdfs :=
    (λ l, format (np_int64 l) +:+ "_infections.pdf") <$> locations in
  let existing_infections_pdfs := basename <$> files in
  (λ pdf, plot_dir +:+ "/" +:+ pdf)
    <$> filter (λ pdf, pdf ∈ existing_infections_pdfs) possible_infections_pdfs.

End Runner.

(** ** Stand-ins for the collaborators

    Small executable collaborators, used to run the embedding on concrete
    inputs: the first-stage model predicts the observed death rate, the
    smoother returns the death rate as every draw, and the merge keeps the
    rows of its left argument and adds the columns only the right one has. *)

Module Toy.

Definition cfr_model (df : DataFrame) (predicted : string) (g : nat) :
    result (DataFrame * nat) :=
  a ← df_getitem "Death rate" df;
  mret (df_setitem predicted a df, S g).

Definition synthesize_time_series (df : DataFrame) (doy_holdout n_draws : Z)
    (_ : unit) (g : nat) : result ((DataFrame * DataFrame) * nat) :=
  a ← df_getitem "Death rate" df;
  population ← df_getitem "population" df;
  let draws :=
    mkDF (df_index df)
         (("population", population)
            :: ((λ d, (draw_col d, a)) <$> np_arange n_draws)) in
  mret ((draws, draws), S g).

Definition key_eqb (j k : Key) : bool :=
  bool_decide (key_location_id j = key_location_id k)
  && bool_decide (key_Date j = key_Date k).

Definition pd_merge_outer (x y : DataFrame) : result DataFrame :=
  let align (a : list float) : list float :=
    (λ k, match list_find (λ j, key_eqb j k = true) (df_index y) with
          | Some (i, _) => default nan (a !! i)
          | None => nan
          end) <$> df_index x in
  Ok (mkDF (df_index x)
           (df_columns x
              ++ (prod_map id align
                    <$> filter (λ p, p.1 ∉ columns x) (df_columns y)))).

Definition settings : Models.Settings :=
  Models.mkSettings "Predicted death rate (CFR)" "Predicted death rate (HFR)"
                    tt [] [].

(** Four days of one location; the last day has cases only. *)
Definition frame : DataFrame :=
  mkDF [mkKey 7 "Seven" 1; mkKey 7 "Seven" 2; mkKey 7 "Seven" 3;
        mkKey 7 "Seven" 4]
       [("Death rate", [of_Z 1; of_Z 2; of_Z 3; nan]);
        ("Confirmed case rate", [of_Z 10; of_Z 20; of_Z 30; of_Z 40]);
        ("Hospitalization rate", [nan; of_Z 5; of_Z 6; nan]);
        ("population", [of_Z 100; of_Z 100; of_Z 100; of_Z 100])].

Definition store : Models.state :=
  Models.mkState {[1%positive := frame]} 0%nat.

(** An aggregation that returns one row, dated 1, for every declared
    location. *)
Definition compute_location_aggregates (_ : DataFrame) (_ : unit)
    (agg_locations : list Runner.Location) : DataFrame :=
  mkDF ((λ l, mkKey (Runner.id l) (Runner.name l) 1) <$> agg_locations) [].

(** A table of rate draws with its population column. *)
Definition draws : DataFrame :=
  mkDF [mkKey 7 "Seven" 1; mkKey 7 "Seven" 2]
       [("population", [of_Z 100; of_Z 200]);
        ("draw_0", [of_Z 1; of_Z 2]);
        ("draw_1", [of_Z 3; nan])].

End Toy.

(** * Properties *)

(** ** The draw allocation *)

Lemma total_app (l k : list Z) : total (l ++ k) = total l + total k.
Proof. unfold total. induction l as [|x l IH]; simpl; lia. Qed.

Lemma total_replicate (k : nat) (x : Z) :
  total (replicate k x) = Z.of_nat k * x.
Proof.
  induction k as [|k IH]; [done|].
  rewrite Nat2Z.inj_succ. unfold total in *. cbn [replicate foldr]. lia.
Qed.

Lemma total_nonneg (l : list Z) : Forall (λ d, 0 ≤ d) l → 0 ≤ total l.
Proof. unfold total. induction 1; simpl; lia. Qed.

Lemma scalar_value_np_sum (l : list Z) : scalar_value (np_sum l) = total l.
Proof. by destruct l. Qed.

Lemma iadd_last_snoc (l : list Z) (x v : Z) :
  iadd_last (l ++ [x]) v = Ok (l ++ [x + v]).
Proof.
  unfold iadd_last. destruct (l ++ [x]) eqn:E.
  - by destruct l.
  - rewrite <- E. f_equal. rewrite length_app. simpl.
    replace (Nat.pred (length l + 1)) with (length l + 0)%nat by lia.
    by rewrite alter_app_r.
Qed.

(** The allocation in closed form. *)
Lemma iteration_n_draws_closed (H n_draws : Z) :
  0 ≤ H →
  iteration_n_draws H n_draws =
    Ok (replicate (Z.to_nat H) (n_draws ÷ (H + 1))
          ++ [n_draws ÷ (H + 1) + (n_draws - (H + 1) * (n_draws ÷ (H + 1)))]).
Proof.
  intros HH. unfold iteration_n_draws, int_truediv.
  destruct (decide (H + 1 = 0)) as [?|_]; [lia|]. simpl.
  unfold list_mul. replace (Z.to_nat (H + 1)) with (S (Z.to_nat H)) by lia.
  rewrite scalar_value_np_sum, replicate_S_end, iadd_last_snoc. do 3 f_equal.
  rewrite total_app, total_replicate, Z2Nat.id by lia.
  generalize (n_draws ÷ (H + 1)). intros b. unfold total. cbn [foldr]. lia.
Qed.

(** ** C2 *)




(** ** Draw column labels and renaming *)

Lemma draw_col_inj (d e : Z) : draw_col d = draw_col e → d = e.
Proof.
  unfold draw_col, format. intros Heq. simpl in Heq. simplify_eq.
  apply (f_equal NilEmpty.int_of_string) in Heq.
  rewrite !NilEmpty.isi in Heq. simplify_eq.
  by rewrite <- (DecimalZ.of_to d), <- (DecimalZ.of_to e), Heq.
Qed.

Global Instance draw_col_Inj : Inj (=) (=) draw_col.
Proof. intros d e. apply draw_col_inj. Qed.

(** A string that ends in [.0] is not the decimal writing of an integer. *)
Lemma uint_of_string_point (s : string) :
  NilEmpty.uint_of_string (s +:+ ".0") = None.
Proof.
  induction s as [|c s IH]; [done|].
  simpl. rewrite IH.
  unfold uint_of_char. by destruct c as [[] [] [] [] [] [] [] []].
Qed.

Lemma int_of_string_point (s : string) :
  NilEmpty.int_of_string (s +:+ ".0") = None.
Proof.
  destruct s as [|c s]; [done|].
  pose proof (uint_of_string_point (String c s)) as Hcs.
  pose proof (uint_of_string_point s) as Hs.
  simpl in *. destruct (Ascii.eqb c _); [by rewrite Hs|by rewrite Hcs].
Qed.

Lemma float_label_not_draw_col (d e : Z) :
  "draw_" +:+ format (np_float64 d) ≠ draw_col e.
Proof.
  unfold draw_col, format. intros Heq. simpl in Heq. simplify_eq.
  apply (f_equal NilEmpty.int_of_string) in Heq.
  by rewrite int_of_string_point, NilEmpty.isi in Heq.
Qed.
Lemma dict_snoc (l : list (string * string)) (p : string * string) :
  dict (l ++ [p]) = <[p.1 := p.2]> (dict l).
Proof. unfold dict. by rewrite foldl_app. Qed.

Lemma dict_lookup_None (l : list (string * string)) (k : string) :
  k ∉ l.*1 → dict l !! k = None.
Proof.
  induction l as [|p l IH] using rev_ind; [done|].
  rewrite fmap_app, not_elem_of_app. intros [Hl Hp].
  rewrite dict_snoc, lookup_insert_ne; [by apply IH|].
  intros Heq. apply Hp. simpl. rewrite Heq. left.
Qed.

Lemma dict_lookup_Some (l : list (string * string)) (k v : string) :
  NoDup l.*1 → (k, v) ∈ l → dict l !! k = Some v.
Proof.
  induction l as [|p l IH] using rev_ind; [by intros _ ?%elem_of_nil|].
  rewrite fmap_app, NoDup_app. intros (Hl & Hdis & _).
  rewrite elem_of_app, dict_snoc. intros [Hin|Hin%list_elem_of_singleton].
  - rewrite lookup_insert_ne; [by apply IH|].
    intros Heq. apply (Hdis k).
    + apply list_elem_of_fmap. by exists (k, v).
    + simpl. rewrite Heq. left.
  - subst p. simpl. by rewrite lookup_insert_eq.
Qed.

Lemma rename_label_zip (ks vs : list string) (i : nat) (k v : string) :
  NoDup ks → length ks = length vs →
  ks !! i = Some k → vs !! i = Some v →
  rename_label (dict (zip ks vs)) k = v.
Proof.
  intros Hnd Hlen Hk Hv. unfold rename_label.
  rewrite (dict_lookup_Some _ k v); [done| |].
  - by rewrite fst_zip by lia.
  - apply list_elem_of_lookup. exists i. rewrite lookup_zip_with, Hk. simpl. by rewrite Hv.
Qed.

Lemma rename_label_other (ks vs : list string) (c : string) :
  c ∉ ks → rename_label (dict (zip ks vs)) c = c.
Proof.
  intros Hc. unfold rename_label. rewrite dict_lookup_None; [done|].
  intros Hin. apply Hc. apply list_elem_of_fmap in Hin as [[k v] [-> Hin]].
  by apply elem_of_zip_l in Hin.
Qed.


Lemma scalar_value_np_add (d : Z) (c : np_scalar) :
  scalar_value (np_add d c) = d + scalar_value c.
Proof. by destruct c. Qed.

Lemma scalar_value_col_add (ds : list Z) (i : nat) :
  scalar_value (col_add ds i) = total (take i ds).
Proof. apply scalar_value_np_sum. Qed.

(** The offset of the first iteration is the float [0.0], that of a later
    one an int64. *)
Lemma col_add_first (ds : list Z) : col_add ds 0 = np_float64 0.
Proof. unfold col_add. by rewrite take_0. Qed.

Lemma col_add_later (ds : list Z) (i : nat) :
  (0 < i)%nat → ds ≠ [] → col_add ds i = np_int64 (total (take i ds)).
Proof. intros Hi Hds. unfold col_add. destruct i, ds; try done; lia. Qed.

(** The ids of iteration [i] are the [d_i] integers from the sum of the
    earlier counts. *)
Lemma global_ids_seqZ (ds : list Z) (i : nat) (d_i : Z) :
  ds !! i = Some d_i → global_ids ds i = seqZ (total (take i ds)) d_i.
Proof.
  intros Hi. unfold global_ids, np_arange.
  unfold nth. rewrite Hi. simpl.
  trans (Z.add (total (take i ds)) <$> seqZ 0 d_i).
  - apply list_fmap_ext. intros _ d _.
    rewrite scalar_value_np_add, scalar_value_col_add. lia.
  - rewrite fmap_add_seqZ. f_equal. lia.
Qed.

Lemma global_ids_out (ds : list Z) (i : nat) :
  (length ds ≤ i)%nat → global_ids ds i = [].
Proof.
  intros Hi. unfold global_ids, np_arange.
  unfold nth. by rewrite lookup_ge_None_2.
Qed.

(** The first iteration gets float labels, a later one the labels of its
    ids. *)
Lemma new_cols_first (ds : list Z) :
  new_cols ds 0 =
    (λ d, "draw_" +:+ format (np_float64 d)) <$> np_arange (nth ds 0).
Proof.
  unfold new_cols. rewrite col_add_first. apply list_fmap_ext.
  intros _ d _. simpl. by rewrite Z.add_0_r.
Qed.

Lemma new_cols_later (ds : list Z) (i : nat) :
  (0 < i)%nat → new_cols ds i = draw_col <$> global_ids ds i.
Proof.
  intros Hi. unfold new_cols, global_ids. rewrite <- list_fmap_compose.
  destruct ds as [|d0 ds]; [by destruct i|].
  by rewrite col_add_later.
Qed.

Lemma total_take_S (ds : list Z) (i : nat) (d_i : Z) :
  ds !! i = Some d_i → total (take (S i) ds) = total (take i ds) + d_i.
Proof.
  intros Hi. rewrite (take_S_r _ _ _ Hi), total_app.
  unfold total at 2. simpl. lia.
Qed.

Lemma total_take_mono (ds : list Z) (i j : nat) :
  Forall (λ d, 0 ≤ d) ds → (i ≤ j)%nat →
  total (take i ds) ≤ total (take j ds).
Proof.
  intros Hds. induction 1 as [|j Hle IH]; [done|].
  destruct (ds !! j) as [d|] eqn:Hj.
  - rewrite (total_take_S _ _ _ Hj).
    pose proof (proj1 (Forall_lookup _ _) Hds _ _ Hj). simpl in *. lia.
  - apply lookup_ge_None in Hj.
    rewrite (take_ge ds (S j)) by lia. by rewrite (take_ge ds j) in IH by lia.
Qed.

Lemma elem_of_global_ids (ds : list Z) (i : nat) (g : Z) :
  g ∈ global_ids ds i ↔
  ∃ d_i, ds !! i = Some d_i
         ∧ total (take i ds) ≤ g < total (take i ds) + d_i.
Proof.
  destruct (ds !! i) as [d|] eqn:Hi.
  - rewrite (global_ids_seqZ _ _ _ Hi), elem_of_seqZ. split.
    + intros Hg. by exists d.
    + by intros (d' & [= <-] & Hg).
  - rewrite global_ids_out by by apply lookup_ge_None.
    split; [by intros ?%elem_of_nil|by intros (d' & [=] & _)].
Qed.

Lemma global_ids_disjoint (ds : list Z) (i j : nat) :
  Forall (λ d, 0 ≤ d) ds → i ≠ j → global_ids ds i ## global_ids ds j.
Proof.
  intros Hds Hij g (di & Hi & Hgi)%elem_of_global_ids (dj & Hj & Hgj)%elem_of_global_ids.
  destruct (decide (i < j)%nat).
  - pose proof (total_take_mono ds (S i) j Hds ltac:(lia)) as Hm.
    rewrite (total_take_S _ _ _ Hi) in Hm. lia.
  - pose proof (total_take_mono ds (S j) i Hds ltac:(lia)) as Hm.
    rewrite (total_take_S _ _ _ Hj) in Hm. lia.
Qed.

Lemma global_ids_concat (ds : list Z) :
  Forall (λ d, 0 ≤ d) ds →
  mjoin (global_ids ds <$> seq 0 (length ds)) = seqZ 0 (total ds).
Proof.
  induction ds as [|d ds IH] using rev_ind; [done|].
  rewrite Forall_app, Forall_singleton. intros [Hds Hd].
  rewrite length_app. simpl. rewrite seq_app, fmap_app, join_app. simpl.
  rewrite app_nil_r, total_app.
  replace (total [d]) with d by (unfold total; simpl; lia).
  rewrite seqZ_app by (try apply total_nonneg; done).
  f_equal.
  - rewrite <- IH by done. f_equal. apply list_eq_Forall2, Forall2_fmap, Forall_Forall2_diag.
    apply Forall_forall. intros i Hi%elem_of_seq.
    destruct (lookup_lt_is_Some_2 ds i ltac:(lia)) as [di Hdi].
    rewrite (global_ids_seqZ (ds ++ [d]) i di), (global_ids_seqZ ds i di); try done.
    + by rewrite take_app_le by lia.
    + by rewrite lookup_app_l by lia.
  - rewrite (global_ids_seqZ _ _ d).
    + by rewrite take_app_length.
    + by rewrite lookup_app_r, Nat.sub_diag by lia.
Qed.

Lemma fmap_join {A B} (f : A → B) (ls : list (list A)) :
  f <$> mjoin ls = mjoin (fmap f <$> ls).
Proof. induction ls as [|l ls IH]; [done|]. simpl. by rewrite fmap_app, IH. Qed.

(** What the renaming needs from the allocation. *)
Lemma draw_allocation_facts (H n_draws : Z) :
  0 ≤ H → 0 < n_draws →
  ∃ ds, iteration_n_draws H n_draws = Ok ds
        ∧ Forall (λ d, 0 ≤ d) ds ∧ total ds = n_draws.
Proof.
  intros HH Hn. eexists. split; [by apply iteration_n_draws_closed|].
  pose proof (Z.quot_pos n_draws (H + 1) ltac:(lia) ltac:(lia)) as Hb.
  pose proof (Z.mul_quot_le n_draws (H + 1) ltac:(lia) ltac:(lia)) as Hle.
  split.
  - apply Forall_app. split; [apply Forall_replicate; lia|apply Forall_singleton; lia].
  - rewrite total_app, total_replicate, Z2Nat.id by lia.
    revert Hb Hle. generalize (n_draws ÷ (H + 1)). intros b _ _.
    unfold total. cbn [foldr]. lia.
Qed.

(** The renaming on a whole frame: labels are renamed one by one, cells are
    left alone. *)
Lemma columns_df_rename (m : gmap string string) (df : DataFrame) :
  columns (df_rename m df) = rename_label m <$> columns df.
Proof.
  unfold columns, df_rename. simpl. rewrite <- !list_fmap_compose.
  by apply list_fmap_ext.
Qed.

Lemma rename_cols (ds : list Z) (i : nat) :
  rename_label (renamer ds i) <$> cols ds i = new_cols ds i.
Proof.
  assert (Hlen : length (cols ds i) = length (new_cols ds i)).
  { unfold cols, new_cols. by rewrite !length_fmap. }
  assert (Hnd : NoDup (cols ds i)).
  { unfold cols, np_arange. apply (NoDup_fmap_2 _), NoDup_seqZ. }
  apply list_eq. intros k. rewrite list_lookup_fmap.
  destruct (cols ds i !! k) as [c|] eqn:Hc; simpl.
  - destruct (lookup_lt_is_Some_2 (new_cols ds i) k) as [v Hv].
    { rewrite <- Hlen. by eapply lookup_lt_Some. }
    rewrite Hv. f_equal. by apply (rename_label_zip _ _ k).
  - symmetry. apply lookup_ge_None. rewrite <- Hlen. by apply lookup_ge_None.
Qed.

(** A draw table of iteration [i] that carries [draw_0 .. draw_{d_i - 1}] after
    labels that are not draw labels of the iteration comes out with the new
    labels in their place. *)
Lemma rename_draw_table (ds : list Z) (i : nat) (other : list string)
    (df : DataFrame) :
  (∀ c, c ∈ other → c ∉ cols ds i) →
  columns df = other ++ cols ds i →
  columns (df_rename (renamer ds i) df) = other ++ new_cols ds i.
Proof.
  intros Hother Hcols. rewrite columns_df_rename, Hcols, fmap_app. f_equal.
  - rewrite <- (list_fmap_id other) at 2. apply list_fmap_ext.
    intros k c Hc. apply rename_label_other, Hother.
    by eapply list_elem_of_lookup_2.
  - apply rename_cols.
Qed.

(** What holds of the renaming: as numbers the ids of the iterations are
    pairwise disjoint ranges that list [0 .. n_draws - 1] in order, and every
    iteration after the first renames [draw_d] to the label of its id. *)
Lemma global_ids_partition (H n_draws : Z) :
  0 ≤ H → 0 < n_draws →
  ∃ ds,
    iteration_n_draws H n_draws = Ok ds
    ∧ (∀ i d_i, ds !! i = Some d_i →
         cols ds i = draw_col <$> seqZ 0 d_i
         ∧ global_ids ds i = seqZ (total (take i ds)) d_i)
    ∧ (∀ i d_i, (0 < i)%nat → ds !! i = Some d_i →
         new_cols ds i = draw_col <$> seqZ (total (take i ds)) d_i
         ∧ (∀ d, 0 ≤ d < d_i →
              rename_label (renamer ds i) (draw_col d)
              = draw_col (total (take i ds) + d)))
    ∧ (∀ i label, label ∉ cols ds i → rename_label (renamer ds i) label = label)
    ∧ (∀ i j, i ≠ j → global_ids ds i ## global_ids ds j)
    ∧ (∀ g, (∃ i, (i < length ds)%nat ∧ g ∈ global_ids ds i) ↔ 0 ≤ g < n_draws)
    ∧ mjoin (global_ids ds <$> seq 0 (length ds)) = seqZ 0 n_draws.
Proof.
  intros HH Hn.
  destruct (draw_allocation_facts H n_draws HH Hn) as (ds & Hds & Hpos & Hsum).
  exists ds. split; [done|].
  assert (Hcat : mjoin (global_ids ds <$> seq 0 (length ds)) = seqZ 0 n_draws).
  { by rewrite global_ids_concat, Hsum. }
  assert (Hcols : ∀ i d_i, ds !! i = Some d_i → cols ds i = draw_col <$> seqZ 0 d_i).
  { intros i d_i Hi. unfold cols, np_arange, nth. by rewrite Hi. }
  split.
  { intros i d_i Hi. split; [by apply Hcols|by apply global_ids_seqZ]. }
  split.
  { intros i d_i Hpos_i Hi.
    assert (Hnew : new_cols ds i = draw_col <$> seqZ (total (take i ds)) d_i).
    { by rewrite new_cols_later, (global_ids_seqZ _ _ d_i). }
    split; [done|].
    intros d Hd. unfold renamer.
    apply (rename_label_zip _ _ (Z.to_nat d)).
    - rewrite (Hcols _ _ Hi). apply (NoDup_fmap_2 _), NoDup_seqZ.
    - by rewrite (Hcols _ _ Hi), Hnew, !length_fmap, !length_seqZ.
    - rewrite (Hcols _ _ Hi), list_lookup_fmap, lookup_seqZ_lt by lia.
      simpl. f_equal. f_equal. lia.
    - rewrite Hnew, list_lookup_fmap, lookup_seqZ_lt by lia.
      simpl. f_equal. f_equal. lia. }
  split; [intros i label Hl; unfold renamer; by apply rename_label_other|].
  split; [intros i j Hij; by apply global_ids_disjoint|].
  split; [|done].
  intros g. replace n_draws with (0 + n_draws) at 1 by lia.
  rewrite <- (elem_of_seqZ 0 n_draws g), <- Hcat, list_elem_of_join. split.
  - intros (i & Hi & Hg). exists (global_ids ds i). split; [done|].
    apply list_elem_of_fmap. exists i. split; [done|]. apply elem_of_seq. lia.
  - intros (l & Hg & (i & -> & Hi%elem_of_seq)%list_elem_of_fmap).
    exists i. split; [lia|done].
Qed.

(** ** C1 *)

(** C1.  The offset of iteration [i] is [np.sum(iteration_n_draws[:i])].  For
    the first iteration the slice is empty and numpy returns the float [0.0],
    so [d + col_add] is a float and the new labels of the first iteration are
    [draw_0.0], [draw_1.0], ... instead of [draw_0], [draw_1], ...: for
    [H = 2], [n_draws = 10] the allocation is [[3; 3; 4]] and the three
    iterations get the labels [draw_0.0 .. draw_2.0], [draw_3 .. draw_5] and
    [draw_6 .. draw_9].  No label of the first iteration is the label of an
    integer id. *)
Theorem first_iteration_labels :
  iteration_n_draws 2 10 = Ok [3; 3; 4]
  ∧ new_cols [3; 3; 4] <$> [0; 1; 2]%nat
    = [["draw_0.0"; "draw_1.0"; "draw_2.0"];
       ["draw_3"; "draw_4"; "draw_5"];
       ["draw_6"; "draw_7"; "draw_8"; "draw_9"]]
  ∧ rename_label (renamer [3; 3; 4] 0) "draw_0" = "draw_0.0"
  ∧ (∀ ds, new_cols ds 0
           = (λ d, "draw_" +:+ format (np_float64 d)) <$> np_arange (nth ds 0))
  ∧ (∀ ds label id, label ∈ new_cols ds 0 → label ≠ draw_col id).
Proof.
  split; [reflexivity|]. split; [reflexivity|]. split; [reflexivity|].
  split; [apply new_cols_first|].
  intros ds label id. rewrite new_cols_first.
  intros (d & -> & _)%list_elem_of_fmap. apply float_label_not_draw_col.
Qed.

(** ** Tail blanking *)

Import Models.

Lemma drop_days_blank (data : list float) (h : Z) :
  drop_days data h = blank (Z.to_nat h) data.
Proof.
  unfold drop_days, blank, slice_last. destruct (decide (0 < h)) as [Hh|Hh]; [done|].
  replace (Z.to_nat h) with 0%nat by lia.
  by rewrite Nat.sub_0_r, drop_all.
Qed.

Lemma argwhere_notnan_snoc (d : list float) (x : float) :
  argwhere_notnan (d ++ [x]) =
    argwhere_notnan d ++ (if isnan x then [] else [length d]).
Proof.
  unfold argwhere_notnan. rewrite imap_app, filter_app, fmap_app. f_equal.
  destruct x; cbn; by rewrite ?Nat.add_0_r.
Qed.

Lemma argwhere_notnan_lt (d : list float) :
  Forall (λ i, (i < length d)%nat) (argwhere_notnan d).
Proof.
  induction d as [|x d IH] using rev_ind; [constructor|].
  rewrite argwhere_notnan_snoc, length_app. simpl. apply Forall_app. split.
  - eapply Forall_impl; [exact IH|]. simpl. lia.
  - destruct (isnan x); [constructor|]. apply Forall_singleton. lia.
Qed.

Lemma length_argwhere_notnan (d : list float) :
  length (argwhere_notnan d) = count_notnan d.
Proof.
  unfold count_notnan. induction d as [|x d IH] using rev_ind; [done|].
  rewrite argwhere_notnan_snoc, filter_app, !length_app, IH. f_equal.
  by destruct x.
Qed.

Lemma setitem_nan_app_l (idx : list nat) (d e : list float) :
  Forall (λ i, (i < length d)%nat) idx →
  setitem_nan idx (d ++ e) = setitem_nan idx d ++ e.
Proof.
  unfold setitem_nan. induction 1 as [|i idx Hi _ IH]; [done|].
  simpl. rewrite IH. apply insert_app_l.
  clear -Hi. induction idx as [|j idx IH]; simpl; [done|]. by rewrite length_insert.
Qed.

Lemma setitem_nan_snoc (idx : list nat) (d : list float) (x : float) :
  Forall (λ i, (i < length d)%nat) idx →
  setitem_nan (idx ++ [length d]) (d ++ [x]) = setitem_nan idx d ++ [nan].
Proof.
  intros Hidx. unfold setitem_nan. rewrite foldr_app. simpl.
  replace (<[length d := nan]> (d ++ [x])) with (d ++ [nan]).
  - by apply setitem_nan_app_l.
  - replace (length d) with (length d + 0)%nat at 1 by lia.
    by rewrite insert_app_r.
Qed.

Lemma length_setitem_nan (idx : list nat) (d : list float) :
  length (setitem_nan idx d) = length d.
Proof.
  unfold setitem_nan. induction idx as [|i idx IH]; simpl; [done|].
  by rewrite length_insert.
Qed.

Lemma blank_0 (d : list float) : blank 0 d = d.
Proof. unfold blank. by rewrite Nat.sub_0_r, drop_all. Qed.

Lemma length_blank (h : nat) (d : list float) : length (blank h d) = length d.
Proof. apply length_setitem_nan. Qed.

Lemma blank_snoc_nan (h : nat) (d : list float) :
  blank h (d ++ [nan]) = blank h d ++ [nan].
Proof.
  unfold blank. rewrite argwhere_notnan_snoc. simpl. rewrite app_nil_r.
  apply setitem_nan_app_l.
  eapply Forall_drop, argwhere_notnan_lt.
Qed.

Lemma blank_snoc_value (h : nat) (d : list float) (q : Qc) :
  blank (S h) (d ++ [Some q]) = blank h d ++ [nan].
Proof.
  unfold blank. rewrite argwhere_notnan_snoc. simpl.
  rewrite length_app. simpl.
  replace (length (argwhere_notnan d) + 1 - S h)%nat
    with (length (argwhere_notnan d) - h)%nat by lia.
  rewrite drop_app_le by lia.
  apply setitem_nan_snoc. eapply Forall_drop, argwhere_notnan_lt.
Qed.

Lemma count_notnan_app (d e : list float) :
  count_notnan (d ++ e) = (count_notnan d + count_notnan e)%nat.
Proof. unfold count_notnan. by rewrite filter_app, length_app. Qed.

(** Blanking to depth [h] cuts the array at one position: nothing changes
    before it, every cell from it on is missing, and the cells from it on held
    [min h m] observations. *)
Lemma blank_cut (h : nat) (d : list float) :
  ∃ k, (k ≤ length d)%nat
       ∧ take k (blank h d) = take k d
       ∧ Forall (λ x, x = nan) (drop k (blank h d))
       ∧ count_notnan (drop k d) = (h `min` count_notnan d)%nat.
Proof.
  revert h. induction d as [|x d IH] using rev_ind; intros h.
  { exists 0%nat. change (blank h []) with (@nil float).
    split; [done|]. split; [done|]. split; [constructor|].
    unfold count_notnan. simpl. lia. }
  destruct x as [q|].
  - destruct h as [|h].
    + exists (length (d ++ [Some q])). rewrite blank_0, !drop_all.
      split; [done|]. split; [done|]. split; [constructor|done].
    + destruct (IH h) as (k & Hk & Htake & Hdrop & Hcount).
      exists k. rewrite blank_snoc_value, length_app. cbn [length].
      assert (Hkb : (k ≤ length (blank h d))%nat) by by rewrite length_blank.
      rewrite !take_app_le, !drop_app_le by lia.
      split; [lia|]. split; [done|]. split.
      * apply Forall_app. split; [done|]. by apply Forall_singleton.
      * rewrite !count_notnan_app, Hcount.
        change (count_notnan [Some q]) with 1%nat. lia.
  - destruct (IH h) as (k & Hk & Htake & Hdrop & Hcount).
    exists k. rewrite blank_snoc_nan, length_app. cbn [length].
    assert (Hkb : (k ≤ length (blank h d))%nat) by by rewrite length_blank.
    rewrite !take_app_le, !drop_app_le by lia.
    split; [lia|]. split; [done|]. split.
    * apply Forall_app. split; [done|]. by apply Forall_singleton.
    * rewrite !count_notnan_app, Hcount.
      change (count_notnan [None]) with 0%nat. lia.
Qed.

Lemma count_notnan_all_nan (d : list float) :
  Forall (λ x, x = nan) d → count_notnan d = 0%nat.
Proof.
  unfold count_notnan. induction 1 as [|x d -> _ IH]; [done|].
  by rewrite filter_cons_False.
Qed.

(** ** Reading and writing columns *)

Lemma df_getitem_Ok (c : string) (df : DataFrame) (a : list float) :
  df_getitem c df = Ok a ↔
  ∃ i c', list_find (λ p, p.1 = c) (df_columns df) = Some (i, (c', a)).
Proof.
  unfold df_getitem. destruct (list_find _ _) as [[i [c' a']]|]; split.
  - intros [= <-]. by exists i, c'.
  - by intros (? & ? & [= _ _ <-]).
  - done.
  - by intros (? & ? & [=]).
Qed.

Lemma df_setitem_found (c : string) (a : list float) (df : DataFrame)
    (i : nat) (p : string * list float) :
  list_find (λ p, p.1 = c) (df_columns df) = Some (i, p) →
  df_setitem c a df = mkDF (df_index df) (<[i := (c, a)]> (df_columns df))
  ∧ list_find (λ p, p.1 = c) (<[i := (c, a)]> (df_columns df)) = Some (i, (c, a)).
Proof.
  intros Hf. unfold df_setitem. rewrite Hf. split; [done|].
  apply list_find_Some in Hf as (Hi & Hp & Hbefore).
  apply list_find_Some. split; [|split; [done|]].
  - apply list_lookup_insert_eq. by eapply lookup_lt_Some.
  - intros j y Hj Hlt. rewrite list_lookup_insert_ne in Hj by lia. by eapply Hbefore.
Qed.

Lemma df_getitem_setitem (c : string) (a b : list float) (df : DataFrame) :
  df_getitem c df = Ok b → df_getitem c (df_setitem c a df) = Ok a.
Proof.
  intros (i & c' & Hf)%df_getitem_Ok.
  destruct (df_setitem_found c a df i _ Hf) as [-> Hf'].
  unfold df_getitem. simpl. by rewrite Hf'.
Qed.

Lemma df_getitem_setitem_ne (c c' : string) (a b : list float) (df : DataFrame) :
  c ≠ c' → df_getitem c df = Ok b →
  df_getitem c' (df_setitem c a df) = df_getitem c' df.
Proof.
  intros Hne (i & c0 & Hf)%df_getitem_Ok.
  destruct (df_setitem_found c a df i _ Hf) as [-> _].
  apply list_find_Some in Hf as (Hi & Hp & _). simpl in Hp. subst c0.
  unfold df_getitem. simpl.
  assert (Hfind : ∀ (l : list (string * list float)) i b,
            l !! i = Some (c, b) →
            prod_map id snd <$> list_find (λ p, p.1 = c') (<[i := (c, a)]> l)
            = prod_map id snd <$> list_find (λ p, p.1 = c') l).
  { clear -Hne. intros l. induction l as [|[c1 a1] l IH]; intros i b Hi; [done|].
    destruct i as [|i]; simpl in *.
    - simplify_eq. rewrite !decide_False by done.
      by destruct (list_find _ l) as [[? [? ?]]|].
    - destruct (decide (c1 = c')); [done|].
      specialize (IH i b Hi).
      destruct (list_find _ (<[i := _]> l)) as [[? [? ?]]|],
               (list_find _ l) as [[? [? ?]]|]; simpl in *; by simplify_eq. }
  specialize (Hfind _ _ _ Hi).
  destruct (list_find _ (<[i := _]> _)) as [[? [? ?]]|],
           (list_find _ (df_columns df)) as [[? [? ?]]|]; simpl in *; by simplify_eq.
Qed.

Lemma df_setitem_idemp (c : string) (a b : list float) (df : DataFrame) :
  df_getitem c df = Ok b →
  df_setitem c a (df_setitem c a df) = df_setitem c a df.
Proof.
  intros (i & c' & Hf)%df_getitem_Ok.
  destruct (df_setitem_found c a df i _ Hf) as [-> Hf'].
  unfold df_setitem at 1. simpl. rewrite Hf'. f_equal.
  apply list_insert_insert_eq.
Qed.

Lemma columns_df_setitem (c : string) (a b : list float) (df : DataFrame) :
  df_getitem c df = Ok b → columns (df_setitem c a df) = columns df.
Proof.
  intros (i & c' & Hf)%df_getitem_Ok.
  destruct (df_setitem_found c a df i _ Hf) as [-> _].
  apply list_find_Some in Hf as (Hi & Hp & _). simpl in Hp. subst c'.
  unfold columns. simpl. rewrite list_fmap_insert. simpl.
  apply list_insert_id. by rewrite list_lookup_fmap, Hi.
Qed.

Lemma df_index_setitem (c : string) (a : list float) (df : DataFrame) :
  df_index (df_setitem c a df) = df_index df.
Proof. unfold df_setitem. by destruct (list_find _ _) as [[? ?]|]. Qed.

(** ** Blanking the indicator columns of a frame *)

Lemma foldl_blank_step_Raise (h : Z) (e : exn) (cs : list string) :
  foldl (blank_step h) (Raise e) cs = Raise e.
Proof. induction cs as [|c cs IH]; [done|]. simpl. apply IH. Qed.

Lemma foldl_blank_step_Ok (h : Z) (cs : list string) (df df' : DataFrame) :
  NoDup cs →
  foldl (blank_step h) (Ok df) cs = Ok df' →
  df_index df' = df_index df
  ∧ columns df' = columns df
  ∧ (∀ c, c ∈ cs →
       ∃ a, df_getitem c df = Ok a ∧ df_getitem c df' = Ok (drop_days a h))
  ∧ (∀ c, c ∉ cs → df_getitem c df' = df_getitem c df).
Proof.
  intros Hnd. revert df. induction Hnd as [|c cs Hc Hnd IH]; intros df.
  { intros [= <-]. split; [done|]. split; [done|]. split; [|done].
    by intros c ?%elem_of_nil. }
  simpl.
  destruct (df_getitem c df) as [a|e] eqn:Ha; simpl;
    [|by rewrite foldl_blank_step_Raise].
  intros Hfold. destruct (IH _ Hfold) as (Hidx & Hcols & Hin & Hout).
  split; [by rewrite Hidx, df_index_setitem|].
  split; [by rewrite Hcols, (columns_df_setitem _ _ a)|].
  split.
  - intros c' [->|Hc']%elem_of_cons.
    + exists a. split; [done|]. rewrite (Hout _ Hc). by apply (df_getitem_setitem _ _ a).
    + destruct (Hin _ Hc') as (a' & Ha' & Hget). exists a'. split; [|done].
      rewrite <- Ha'. symmetry. apply (df_getitem_setitem_ne _ _ _ a); [|done].
      by intros ->.
  - intros c' [Hne Hc']%not_elem_of_cons.
    rewrite (Hout _ Hc'). by apply (df_getitem_setitem_ne _ _ _ a).
Qed.

Lemma foldl_blank_step_total (h : Z) (cs : list string) (df : DataFrame) :
  (∀ c, c ∈ cs → ∃ a, df_getitem c df = Ok a) →
  ∃ df', foldl (blank_step h) (Ok df) cs = Ok df'.
Proof.
  revert df. induction cs as [|c cs IH]; intros df Hall; [by eexists|].
  simpl.
  destruct (Hall c ltac:(left)) as [a Ha]. rewrite Ha. simpl.
  apply IH. intros c' Hc'. destruct (Hall c' ltac:(by right)) as [a' Ha'].
  destruct (decide (c = c')) as [->|Hne].
  - eexists. by apply (df_getitem_setitem _ _ a).
  - exists a'. by rewrite (df_getitem_setitem_ne _ _ _ a).
Qed.

Lemma NoDup_indicators : NoDup indicators.
Proof. unfold indicators. apply NoDup_ListNoDup. repeat constructor; simpl; intuition discriminate. Qed.

Lemma compress_sublist {A} (l : list A) (mask : list bool) :
  compress l mask `sublist_of` l.
Proof.
  revert mask. induction l as [|x l IH]; intros [|[] mask]; simpl;
    try apply sublist_nil_l; [by apply sublist_skip|by apply sublist_cons].
Qed.

Lemma df_setitem_getitem (c : string) (a : list float) (df : DataFrame) :
  df_getitem c df = Ok a → df_setitem c a df = df.
Proof.
  intros (i & c' & Hf)%df_getitem_Ok.
  destruct (df_setitem_found c a df i _ Hf) as [-> _].
  apply list_find_Some in Hf as (Hi & Hp & _). simpl in Hp. subst c'.
  destruct df as [idx cs]. simpl in *. f_equal. by apply list_insert_id.
Qed.

(** ** The object store: what [model_iteration] touches *)

Lemma ST_mapM_cons {S A B} (f : A → ST S B) (x : A) (l : list A) (σ : S) :
  mapM f (x :: l) σ =
    match f x σ with
    | Ok (y, σ1) =>
        match mapM f l σ1 with
        | Ok (k, σ2) => Ok (y :: k, σ2)
        | Raise e => Raise e
        end
    | Raise e => Raise e
    end.
Proof.
  cbn [mapM]. unfold mbind, ST_bind. destruct (f x σ) as [[y σ1]|e]; [|done].
  by destruct (mapM f l σ1) as [[k σ2]|e].
Qed.

Section ObjectStore.

Context {RNG CfrSettings SmootherSettings : Type}.
Variable cfr_model :
  DataFrame → CfrSettings → RNG → result (DataFrame * RNG).
Variable synthesize_time_series :
  DataFrame → Z → Z → SmootherSettings → RNG →
  result ((DataFrame * DataFrame) * RNG).
Variable pd_merge_outer : DataFrame → DataFrame → result DataFrame.

Implicit Types (m : gmap positive DataFrame) (g : RNG) (l : loc).

Ltac run_store :=
  unfold copy, getitem, drop_days_by_indicator, setitem, values, read_array,
    write_array, update, deref, alloc, call, lift;
  unfold mbind, mret, ST_bind, ST_ret; simpl.

(** [drop_days_by_indicator] works in place: the frame the series was taken
    from holds the blanked cells afterwards. *)
Lemma drop_days_by_indicator_in_place l (c : string) (h : Z) m g
    (df : DataFrame) (a : list float) :
  m !! l = Some df → df_getitem c df = Ok a →
  drop_days_by_indicator (l, c) h (mkState m g) =
    Ok ((l, c), mkState (<[l := df_setitem c (drop_days a h) df]> m) g).
Proof.
  intros Hm Ha. run_store. unfold drop_days.
  destruct (decide (0 < h)); simpl.
  - rewrite Hm. simpl. rewrite Ha. simpl. by rewrite Hm.
  - do 3 f_equal. symmetry. apply insert_id. rewrite Hm. f_equal.
    symmetry. by apply df_setitem_getitem.
Qed.

Lemma loop_body_Ok l (c : string) (h : Z) m g (df : DataFrame) (a : list float) :
  m !! l = Some df → df_getitem c df = Ok a →
  loop_body l h c (mkState m g) =
    Ok ((), mkState (<[l := df_setitem c (drop_days a h) df]> m) g).
Proof.
  intros Hm Ha. unfold loop_body.
  unfold mbind at 1, ST_bind at 1.
  replace (getitem l c (mkState m g)) with (Ok (A := view * state) ((l, c), mkState m g)).
  2:{ run_store. by rewrite Hm, Ha. }
  unfold mbind at 1, ST_bind at 1.
  rewrite (drop_days_by_indicator_in_place l c h m g df a Hm Ha).
  run_store. rewrite lookup_insert_eq. simpl.
  rewrite (df_getitem_setitem _ _ a) by done. simpl.
  rewrite lookup_insert_eq. do 3 f_equal.
  rewrite insert_insert_eq. f_equal. by apply (df_setitem_idemp _ _ a).
Qed.

Lemma loop_body_Raise l (c : string) (h : Z) m g (df : DataFrame) (e : exn) :
  m !! l = Some df → df_getitem c df = Raise e →
  loop_body l h c (mkState m g) = Raise e.
Proof. intros Hm Ha. unfold loop_body. run_store. by rewrite Hm, Ha. Qed.

(** The loop of lines 36-37 against [blank_step]. *)
Lemma loop_blank l (h : Z) (cs : list string) m g (df : DataFrame) :
  m !! l = Some df →
  mapM (loop_body l h) cs (mkState m g) =
    match foldl (blank_step h) (Ok df) cs with
    | Ok df' => Ok (replicate (length cs) (), mkState (<[l := df']> m) g)
    | Raise e => Raise e
    end.
Proof.
  revert m df. induction cs as [|c cs IH]; intros m df Hm.
  { simpl. by rewrite insert_id. }
  cbn [mapM foldl]. unfold mbind at 1, ST_bind at 1.
  destruct (df_getitem c df) as [a|e] eqn:Ha.
  - rewrite (loop_body_Ok l c h m g df a Hm Ha).
    unfold mbind at 1, ST_bind at 1.
    rewrite (IH _ (df_setitem c (drop_days a h) df)) by apply lookup_insert_eq.
    unfold blank_step at 2. simpl. rewrite Ha. simpl.
    destruct (foldl _ _ cs); [|done]. simpl. by rewrite insert_insert_eq.
  - rewrite (loop_body_Raise l c h m g df e Hm Ha).
    unfold blank_step at 2. simpl. rewrite Ha. simpl.
    by rewrite foldl_blank_step_Raise.
Qed.

Lemma fresh_lookup m : m !! fresh (dom m) = None.
Proof. apply not_elem_of_dom, is_fresh. Qed.

(** [model_iteration] on the store against [iteration_on] on the contents of
    the frame passed in: same result, same use of the generator, and every
    object of the store is left as it was. *)
Lemma model_iteration_on (location_id : Z) l (s : Settings) (h d : Z)
    (σ : state) (df : DataFrame) :
  heap σ !! l = Some df →
  match model_iteration cfr_model synthesize_time_series pd_merge_outer
          location_id l s h d σ with
  | Ok (res, σ') =>
      iteration_on cfr_model synthesize_time_series pd_merge_outer
        location_id df s h d (rng σ) = Ok (res, rng σ')
      ∧ heap σ ⊆ heap σ'
  | Raise e =>
      iteration_on cfr_model synthesize_time_series pd_merge_outer
        location_id df s h d (rng σ) = Raise e
  end.
Proof.
  destruct σ as [m g]. simpl. intros Hm.
  unfold model_iteration, iteration_on, blanked_input, blank_indicators.
  unfold mbind at 1, ST_bind at 1.
  replace (copy l (mkState m g))
    with (Ok (A := loc * state) (fresh (dom m), mkState (<[fresh (dom m) := df]> m) g)).
  2:{ run_store. by rewrite Hm. }
  set (l1 := fresh (dom m)).
  assert (Hl1 : m !! l1 = None) by apply fresh_lookup.
  unfold mbind at 1, ST_bind at 1.
  rewrite (loop_blank l1 h indicators _ g df) by apply lookup_insert_eq.
  destruct (foldl (blank_step h) (Ok df) indicators) as [df'|e]; [|done].
  rewrite insert_insert_eq.
  unfold drop_null_rows.
  change (Ok df' ≫= ?k) with (k df'). cbv beta.
  fold (nrows df').
  unfold mbind at 1, ST_bind at 1.
  replace (deref l1 (mkState (<[l1 := df']> m) g))
    with (Ok (A := DataFrame * state) (df', mkState (<[l1 := df']> m) g)).
  2:{ unfold deref. simpl. by rewrite lookup_insert_eq. }
  generalize (mapM (λ c, df_getitem c df') indicators). intros [arrays|e].
  2:{ by run_store. }
  run_store.
  set (m1 := <[l1 := df']> m).
  set (df2 := df_loc_rows _ df').
  rewrite lookup_insert_eq. simpl.
  destruct (stages _ _ _ _ df2 s h d g) as [[res g']|e]; [|done].
  simpl. split; [done|].
  assert (Hl2 : m1 !! fresh (dom m1) = None) by apply fresh_lookup.
  trans m1.
  - by apply insert_subseteq.
  - by apply insert_subseteq.
Qed.

(** The comprehension of line 106 against [ensemble_on]: every iteration
    starts from the contents the frame had before the first one. *)
Lemma run_iterations_on (location_id : Z) l (s : Settings)
    (plan : list (Z * Z)) (σ : state) (df : DataFrame) :
  heap σ !! l = Some df →
  match run_iterations cfr_model synthesize_time_series pd_merge_outer
          location_id l s plan σ with
  | Ok (rs, σ') =>
      ensemble_on cfr_model synthesize_time_series pd_merge_outer
        location_id df s plan (rng σ) = Ok (rs, rng σ')
      ∧ heap σ ⊆ heap σ'
  | Raise e =>
      ensemble_on cfr_model synthesize_time_series pd_merge_outer
        location_id df s plan (rng σ) = Raise e
  end.
Proof.
  unfold run_iterations, ensemble_on.
  revert σ. induction plan as [|[h d] plan IH]; intros σ Hσ; [done|].
  rewrite !ST_mapM_cons. cbn [fst snd].
  pose proof (model_iteration_on location_id l s h d σ df Hσ) as Hit.
  destruct (model_iteration _ _ _ _ _ _ _ _ σ) as [[res σ1]|e].
  - destruct Hit as [-> Hsub].
    assert (Hσ1 : heap σ1 !! l = Some df) by by eapply lookup_weaken.
    specialize (IH σ1 Hσ1).
    destruct (mapM (M := ST _) _ plan σ1) as [[rs σ2]|e].
    + destruct IH as [-> Hsub2]. simpl. split; [done|]. by trans (heap σ1).
    + by rewrite IH.
  - by rewrite Hit.
Qed.

End ObjectStore.

(** ** C3 *)

(** C3.  For every holdout depth [h >= 0] and channel with [m] non-missing
    observations, tail blanking sets to missing exactly [min h m] of the most
    recent non-missing points: the channel is cut at one position, nothing
    before it changes, everything from it on is missing afterwards, and the
    cells from it on held [min h m] observations; the array keeps its length
    and [h = 0] changes nothing.  On a frame the dates and every other column
    stay as they are and each of the three indicator channels becomes the
    blanking of its own cells, whatever the other two hold.  The source
    function does this in place on the frame its series was taken from. *)
Theorem tail_blanking (data : list float) (h : Z) :
  0 ≤ h →
  let m := count_notnan data in
  let out := drop_days data h in
  length out = length data
  ∧ Z.of_nat (count_notnan out) = Z.of_nat m - Z.min h (Z.of_nat m)
  ∧ (∃ k, (k ≤ length data)%nat
          ∧ take k out = take k data
          ∧ Forall (λ x, x = nan) (drop k out)
          ∧ Z.of_nat (count_notnan (drop k data)) = Z.min h (Z.of_nat m))
  ∧ (h = 0 → out = data)
  ∧ (∀ df df', blank_indicators df h = Ok df' →
       df_index df' = df_index df
       ∧ columns df' = columns df
       ∧ (∀ c, c ∈ indicators →
            ∃ a, df_getitem c df = Ok a ∧ df_getitem c df' = Ok (drop_days a h))
       ∧ (∀ c, c ∉ indicators → df_getitem c df' = df_getitem c df))
  ∧ (∀ df, (∀ c, c ∈ indicators → ∃ a, df_getitem c df = Ok a) →
       ∃ df', blank_indicators df h = Ok df')
  ∧ (∀ (RNG : Type) (g : RNG) (l : loc) (c : string)
       (store : gmap positive DataFrame) (df : DataFrame) (a : list float),
       store !! l = Some df → df_getitem c df = Ok a →
       drop_days_by_indicator (l, c) h (mkState store g) =
         Ok ((l, c),
             mkState (<[l := df_setitem c (drop_days a h) df]> store) g)).
Proof.
  intros Hh m out. unfold out. rewrite drop_days_blank.
  destruct (blank_cut (Z.to_nat h) data) as (k & Hk & Htake & Hdrop & Hcount).
  fold m in Hcount.
  split; [apply length_blank|]. split.
  { rewrite <- (take_drop k (blank (Z.to_nat h) data)), count_notnan_app.
    rewrite Htake, (count_notnan_all_nan _ Hdrop).
    assert (Hm : m = (count_notnan (take k data) + count_notnan (drop k data))%nat).
    { unfold m. by rewrite <- count_notnan_app, take_drop. }
    lia. }
  split; [exists k; repeat (split; [done|]); lia|].
  split; [intros ->; apply blank_0|].
  split; [intros df df'; apply foldl_blank_step_Ok, NoDup_indicators|].
  split; [intros df; apply foldl_blank_step_total|].
  intros RNG g l c store df a Hl Ha.
  rewrite (drop_days_by_indicator_in_place l c h store g df a Hl Ha).
  by rewrite drop_days_blank.
Qed.

Lemma tail_blanking_witness :
  drop_days [of_Z 4; nan; of_Z 5; of_Z 6; nan] 2 = [of_Z 4; nan; nan; nan; nan]
  ∧ Z.of_nat (count_notnan (drop_days [of_Z 4; nan; of_Z 5; of_Z 6; nan] 2))
    = 3 - Z.min 2 3
  ∧ (2 = 0 →
     drop_days [of_Z 4; nan; of_Z 5; of_Z 6; nan] 2
     = [of_Z 4; nan; of_Z 5; of_Z 6; nan]).
Proof.
  split; [reflexivity|].
  destruct (tail_blanking [of_Z 4; nan; of_Z 5; of_Z 6; nan] 2 ltac:(lia))
    as (_ & Hcount & _ & H0 & _).
  split; [exact Hcount|exact H0].
Defined.

(** ** C9 *)

Section HoldoutEnsemble.

Context {RNG CfrSettings SmootherSettings : Type}.
Variable np_random_seed : Z → RNG.
Variable cfr_model :
  DataFrame → CfrSettings → RNG → result (DataFrame * RNG).
Variable synthesize_time_series :
  DataFrame → Z → Z → SmootherSettings → RNG →
  result ((DataFrame * DataFrame) * RNG).
Variable pd_merge_outer : DataFrame → DataFrame → result DataFrame.

(** [run_models] as a function of the frame it loads: the allocation, then
    the ensemble on that frame, then the assembly. *)
Lemma run_models_on (location_id : Z) (data : DataFrame) (s : Settings)
    (H n_draws : Z) :
  run_models np_random_seed cfr_model synthesize_time_series pd_merge_outer
    location_id data s H n_draws =
  ds ← iteration_n_draws H n_draws;
  match ensemble_on cfr_model synthesize_time_series pd_merge_outer location_id
          (select_location location_id data) s
          (zip (np_arange (H + 1)) ds) (np_random_seed location_id) with
  | Ok (results, _) => assemble pd_merge_outer ds results
  | Raise e => Raise e
  end.
Proof.
  unfold run_models. unfold mbind at 1, ST_bind at 1. unfold alloc at 1.
  cbn [heap rng]. unfold mbind at 1, ST_bind at 1. unfold lift at 1.
  destruct (iteration_n_draws H n_draws) as [ds|e]; [|done].
  change (Ok ds ≫= ?k) with (k ds). cbv beta.
  unfold mbind at 1, ST_bind at 1.
  set (σ := mkState _ _).
  pose proof (run_iterations_on cfr_model synthesize_time_series pd_merge_outer
                location_id (fresh (dom (∅ : gmap positive DataFrame))) s
                (zip (np_arange (H + 1)) ds) σ
                (select_location location_id data)) as Hrun.
  destruct (run_iterations _ _ _ _ _ _ _ σ) as [[rs σ']|e].
  - destruct Hrun as [Hens _]; [apply lookup_insert_eq|].
    unfold σ in Hens. cbn [rng] in Hens. rewrite Hens. unfold lift.
    by destruct (assemble _ _ _).
  - unfold σ in Hrun. cbn [rng] in Hrun. by rewrite Hrun by apply lookup_insert_eq.
Qed.

(** C9.  [model_iteration] leaves the frame passed to it as it was: it blanks
    and filters a copy, and what it returns is what [iteration_on] computes
    from the contents of that frame.  So all the iterations [run_models] runs
    on one location start from the same frame, and the depth-[h] iteration
    works on the blanking to depth [h] of the original channels. *)
Theorem model_iteration_leaves_input (location_id : Z) (l : loc) (s : Settings)
    (σ : state) (df : DataFrame) :
  heap σ !! l = Some df →
  (∀ h d,
     match model_iteration cfr_model synthesize_time_series pd_merge_outer
             location_id l s h d σ with
     | Ok (res, σ') =>
         heap σ' !! l = Some df
         ∧ heap σ ⊆ heap σ'
         ∧ iteration_on cfr_model synthesize_time_series pd_merge_outer
             location_id df s h d (rng σ) = Ok (res, rng σ')
     | Raise e =>
         iteration_on cfr_model synthesize_time_series pd_merge_outer
           location_id df s h d (rng σ) = Raise e
     end)
  ∧ (∀ plan,
       match run_iterations cfr_model synthesize_time_series pd_merge_outer
               location_id l s plan σ with
       | Ok (results, σ') =>
           heap σ' !! l = Some df
           ∧ heap σ ⊆ heap σ'
           ∧ ensemble_on cfr_model synthesize_time_series pd_merge_outer
               location_id df s plan (rng σ) = Ok (results, rng σ')
       | Raise e =>
           ensemble_on cfr_model synthesize_time_series pd_merge_outer
             location_id df s plan (rng σ) = Raise e
       end)
  ∧ (∀ h blanked,
       blank_indicators df h = Ok blanked →
       ∀ c, c ∈ indicators →
         ∃ a, df_getitem c df = Ok a
              ∧ df_getitem c blanked = Ok (drop_days a h))
  ∧ (∀ data H n_draws,
       run_models np_random_seed cfr_model synthesize_time_series
         pd_merge_outer location_id data s H n_draws =
       ds ← iteration_n_draws H n_draws;
       match ensemble_on cfr_model synthesize_time_series pd_merge_outer
               location_id (select_location location_id data) s
               (zip (np_arange (H + 1)) ds) (np_random_seed location_id) with
       | Ok (results, _) => assemble pd_merge_outer ds results
       | Raise e => Raise e
       end).
Proof.
  intros Hl. split; [|split; [|split]].
  - intros h d.
    pose proof (model_iteration_on cfr_model synthesize_time_series
                  pd_merge_outer location_id l s h d σ df Hl) as Hit.
    destruct (model_iteration _ _ _ _ _ _ _ _ σ) as [[res σ']|e]; [|done].
    destruct Hit as [Hit Hsub]. split; [by eapply lookup_weaken|done].
  - intros plan.
    pose proof (run_iterations_on cfr_model synthesize_time_series
                  pd_merge_outer location_id l s plan σ df Hl) as Hrun.
    destruct (run_iterations _ _ _ _ _ _ _ σ) as [[rs σ']|e]; [|done].
    destruct Hrun as [Hrun Hsub]. split; [by eapply lookup_weaken|done].
  - intros h blanked Hb.
    by destruct (foldl_blank_step_Ok h indicators df blanked NoDup_indicators Hb)
      as (_ & _ & Hin & _).
  - intros data H n_draws. apply run_models_on.
Qed.

End HoldoutEnsemble.

Lemma model_iteration_leaves_input_witness :
  match Models.model_iteration Toy.cfr_model Toy.synthesize_time_series
          Toy.pd_merge_outer 7 1%positive Toy.settings 1 3 Toy.store with
  | Ok (res, σ') =>
      heap σ' !! 1%positive = Some Toy.frame
      ∧ heap Toy.store ⊆ heap σ'
      ∧ iteration_on Toy.cfr_model Toy.synthesize_time_series
          Toy.pd_merge_outer 7 Toy.frame Toy.settings 1 3 (rng Toy.store)
        = Ok (res, rng σ')
  | Raise e =>
      iteration_on Toy.cfr_model Toy.synthesize_time_series
        Toy.pd_merge_outer 7 Toy.frame Toy.settings 1 3 (rng Toy.store)
      = Raise e
  end.
Proof.
  apply (model_iteration_leaves_input (λ z, Z.to_nat z) Toy.cfr_model
           Toy.synthesize_time_series Toy.pd_merge_outer 7 1%positive
           Toy.settings Toy.store Toy.frame).
  reflexivity.
Defined.

(** One iteration at depth 1 on the stand-ins: the frame passed in, at
    reference 1, is as before; the copy at reference 2 holds the blanked death
    rate. *)
Example model_iteration_toy :
  (λ rs : RESULTS * state,
     (heap rs.2 !! 1%positive,
      df_getitem "Death rate" <$> heap rs.2 !! 2%positive))
    <$> match model_iteration Toy.cfr_model Toy.synthesize_time_series
                Toy.pd_merge_outer 7 1%positive Toy.settings 1 3 Toy.store with
        | Ok rs => Some rs
        | Raise _ => None
        end
  = Some (Some Toy.frame, Some (Ok [of_Z 1; of_Z 2; nan; nan])).
Proof. vm_compute. reflexivity. Qed.

(** ** Rescaling *)

Lemma result_mapM_Ok {A B} (f : A → result B) (l : list A) (vs : list B) :
  mapM f l = Ok vs ↔ Forall2 (λ x v, f x = Ok v) l vs.
Proof.
  revert vs. induction l as [|x l IH]; intros vs.
  { simpl. split.
    - intros [= <-]. constructor.
    - by intros ->%Forall2_nil_inv_l. }
  cbn [mapM]. split.
  - destruct (f x) as [v|e] eqn:Hx; [|done].
    change (Ok v ≫= ?k) with (k v). cbv beta.
    destruct (mapM f l) as [vs'|e] eqn:Hl; [|done].
    intros [= <-]. constructor; [done|]. by apply IH.
  - intros (v & vs' & Hv & Hvs & ->)%Forall2_cons_inv_l.
    rewrite Hv. change (Ok v ≫= ?k) with (k v). cbv beta.
    apply IH in Hvs. by rewrite Hvs.
Qed.



(** Writing columns computed beforehand, one after the other. *)
Lemma foldl_setitem (f : string → list float) (cs : list string)
    (df : DataFrame) :
  (∀ c, c ∈ cs → ∃ a, df_getitem c df = Ok a) →
  let out := foldl (λ df ca, df_setitem ca.1 ca.2 df) df ((λ c, (c, f c)) <$> cs) in
  df_index out = df_index df
  ∧ columns out = columns df
  ∧ (∀ c, c ∈ cs → df_getitem c out = Ok (f c))
  ∧ (∀ c, c ∉ cs → df_getitem c out = df_getitem c df).
Proof.
  cbv zeta. induction cs as [|c cs IH] using rev_ind; intros Hall.
  { repeat split; try done. by intros c ?%elem_of_nil. }
  rewrite fmap_app, foldl_app. simpl.
  destruct IH as (Hidx & Hcols & Hin & Hout).
  { intros c' Hc'. apply Hall, elem_of_app. by left. }
  set (prev := foldl (λ df ca, df_setitem ca.1 ca.2 df) df
                     ((λ c, (c, f c)) <$> cs)) in *.
  assert (Hc : ∃ a, df_getitem c prev = Ok a).
  { destruct (decide (c ∈ cs)) as [Hc|Hc].
    - exists (f c). by apply Hin.
    - rewrite (Hout _ Hc). apply Hall, elem_of_app. right. left. }
  destruct Hc as [a Ha].
  split; [by rewrite df_index_setitem|].
  split; [by rewrite (columns_df_setitem _ _ a)|].
  split.
  - intros c' [Hc'|Hc']%elem_of_app;
      [|apply list_elem_of_singleton in Hc' as ->].
    + destruct (decide (c = c')) as [->|Hne].
      * by apply (df_getitem_setitem _ _ a).
      * rewrite (df_getitem_setitem_ne _ _ _ a) by done. by apply Hin.
    + by apply (df_getitem_setitem _ _ a).
  - intros c' [Hc' Hne%not_elem_of_cons]%not_elem_of_app.
    rewrite (df_getitem_setitem_ne _ _ _ a); [by apply Hout| |done].
    intros ->. by destruct Hne as [Hne _].
Qed.


Lemma rescale_total (draw_cols : list string) (draws : DataFrame) :
  (∀ c, c ∈ draw_cols → ∃ a, df_getitem c draws = Ok a) →
  (∃ p, df_getitem "population" draws = Ok p) →
  ∃ out, rescale draw_cols draws = Ok out.
Proof.
  intros Hall [p Hp]. unfold rescale.
  assert (Hsel : ∃ selected, mapM (λ c, df_getitem c draws) draw_cols = Ok selected).
  { clear -Hall. induction draw_cols as [|c cs IH]; [by eexists|].
    destruct (Hall c ltac:(left)) as [a Ha].
    destruct IH as [sel Hsel]; [intros c' Hc'; apply Hall; by right|].
    exists (a :: sel). apply result_mapM_Ok. constructor; [done|].
    by apply result_mapM_Ok. }
  destruct Hsel as [selected Hsel]. rewrite Hsel.
  change (Ok selected ≫= ?k) with (k selected). cbv beta. rewrite Hp.
  change (Ok p ≫= ?k) with (k p). cbv beta zeta.
  apply result_mapM_Ok in Hsel.
  set (f := λ c, match df_getitem c draws with
                 | Ok a => zip_with mul a p
                 | Raise _ => []
                 end).
  assert (Hzip : zip draw_cols ((λ a, zip_with mul a p) <$> selected)
                 = (λ c, (c, f c)) <$> draw_cols).
  { clear -Hsel. induction Hsel as [|c a cs sel Hc _ IH]; [done|].
    rewrite !fmap_cons. cbn [zip_with]. f_equal; [|exact IH].
    unfold f. by rewrite Hc. }
  rewrite Hzip.
  destruct (foldl_setitem f draw_cols draws Hall) as (_ & _ & Hin & Hout).
  set (scaled := foldl _ draws _) in *.
  assert (Hps : ∃ a, df_getitem "population" scaled = Ok a).
  { destruct (decide ("population" ∈ draw_cols)) as [Hc|Hc].
    - eexists. by apply Hin.
    - exists p. by rewrite (Hout _ Hc). }
  destruct Hps as [a (i & c' & Hf)%df_getitem_Ok].
  unfold df_delitem. rewrite Hf. by eexists.
Qed.


(** What [assemble] returns went through [rescale], with the draw columns
    read off the merged smoothed table. *)
Lemma assemble_Ok (pd_merge_outer : DataFrame → DataFrame → result DataFrame)
    (ds : list Z) (results : list RESULTS) (r : RESULTS) :
  assemble pd_merge_outer ds results = Ok r →
  ∃ first rest noisy smooth,
    results = first :: rest
    ∧ model_data r = model_data first
    ∧ (match rename_draws ds (noisy_draws <$> results) with
       | x :: l => reduce pd_merge_outer x l
       | [] => Raise TypeError
       end) = Ok noisy
    ∧ (match rename_draws ds (smooth_draws <$> results) with
       | x :: l => reduce pd_merge_outer x l
       | [] => Raise TypeError
       end) = Ok smooth
    ∧ rescale (filter (λ col, String.prefix "draw_" col = true) (columns smooth))
              noisy = Ok (noisy_draws r)
    ∧ rescale (filter (λ col, String.prefix "draw_" col = true) (columns smooth))
              smooth = Ok (smooth_draws r).
Proof.
  unfold assemble. destruct results as [|first rest]; [done|].
  change (Ok (model_data first) ≫= ?k) with (k (model_data first)). cbv beta zeta.
  destruct (match rename_draws ds (noisy_draws <$> first :: rest) with
            | [] => _ | _ => _ end) as [noisy|e]; [|done].
  change (Ok noisy ≫= ?k) with (k noisy). cbv beta.
  destruct (match rename_draws ds (smooth_draws <$> first :: rest) with
            | [] => _ | _ => _ end) as [smooth|e]; [|done].
  change (Ok smooth ≫= ?k) with (k smooth). cbv beta.
  destruct (rescale _ noisy) as [noisy'|e] eqn:Hn; [|done].
  change (Ok noisy' ≫= ?k) with (k noisy'). cbv beta.
  destruct (rescale _ smooth) as [smooth'|e] eqn:Hs; [|done].
  intros [= <-]. by exists first, rest, noisy, smooth.
Qed.

(** The labels reach the tables [run_models] returns: one holdout and three
    draws give the first iteration one draw, labelled with the float offset. *)
Example run_models_toy_columns :
  (λ r, (columns (noisy_draws r), columns (smooth_draws r)))
    <$> match run_models (λ z, Z.to_nat z) Toy.cfr_model
                Toy.synthesize_time_series Toy.pd_merge_outer 7 Toy.frame
                Toy.settings 1 3 with
        | Ok r => Some r
        | Raise _ => None
        end
  = Some (["draw_0.0"; "draw_1"; "draw_2"], ["draw_0.0"; "draw_1"; "draw_2"]).
Proof. reflexivity. Qed.

(** ** C7 *)



(** ** The continuity guard *)

Import Runner.

Lemma compress_fmap {A} (f : A → bool) (l : list A) :
  compress l (f <$> l) = filter (λ x, f x = true) l.
Proof.
  induction l as [|x l IH]; [done|]. cbn [fmap list_fmap compress].
  fold (f <$> l). rewrite IH. destruct (f x) eqn:Hx.
  - by rewrite filter_cons_True.
  - rewrite filter_cons_False; [done|]. by rewrite Hx.
Qed.

Lemma compress_fmap_negb {A} (f : A → bool) (l : list A) :
  compress l (negb <$> (f <$> l)) = filter (λ x, f x = false) l.
Proof.
  rewrite <- list_fmap_compose, compress_fmap.
  apply list_filter_iff. intros x. simpl. by destruct (f x).
Qed.

Lemma groupby_date_None (agg : Z → Z → Z) (rs : list Row) (k : Z) :
  groupby_date agg rs !! k = None ↔ ∀ r, r ∈ rs → location_id r ≠ k.
Proof.
  induction rs as [|r rs IH]; simpl.
  { split; [by intros _ r ?%elem_of_nil|done]. }
  rewrite lookup_insert_None, IH. split.
  - intros [Hrs Hr] r' [->|Hr']%elem_of_cons; [done|by apply Hrs].
  - intros Hall. split; [|apply Hall; left].
    intros r' Hr'. apply Hall. by right.
Qed.

Lemma groupby_date_min (rs : list Row) (k d : Z) :
  groupby_date Z.min rs !! k = Some d ↔
  (∃ r, r ∈ rs ∧ location_id r = k ∧ date r = d)
  ∧ (∀ r, r ∈ rs → location_id r = k → d ≤ date r).
Proof.
  revert d. induction rs as [|r rs IH]; intros d; simpl.
  { rewrite lookup_empty. split; [done|]. by intros [(r & ?%elem_of_nil & _) _]. }
  destruct (decide (location_id r = k)) as [Hk|Hk].
  - rewrite Hk, lookup_insert_eq.
    destruct (groupby_date Z.min rs !! k) as [d'|] eqn:Hd'.
    + specialize (IH d'). destruct (proj1 IH eq_refl) as [(r' & Hr' & Hk' & Hdate) Hle].
      split.
      * intros [= <-]. split.
        -- destruct (Z.min_spec (date r) d') as [[_ ->]|[_ ->]].
           ++ exists r. split; [left|done].
           ++ exists r'. split; [by right|done].
        -- intros r0 [->|Hr0]%elem_of_cons Hk0; [lia|].
           specialize (Hle r0 Hr0 Hk0). lia.
      * intros [(r0 & Hr0 & Hk0 & Hd0) Hmin]. f_equal.
        pose proof (Hmin r ltac:(left) Hk). pose proof (Hmin r' ltac:(by right) Hk').
        apply elem_of_cons in Hr0 as [->|Hr0]; [lia|].
        specialize (Hle r0 Hr0 Hk0). lia.
    + pose proof (proj1 (groupby_date_None _ _ _) Hd') as Hnone. split.
      * intros [= <-]. split; [exists r; split; [left|done]|].
        intros r0 [->|Hr0]%elem_of_cons Hk0; [lia|]. by destruct (Hnone r0 Hr0).
      * intros [(r0 & [->|Hr0]%elem_of_cons & Hk0 & Hd0) _]; [by f_equal|].
        by destruct (Hnone r0 Hr0).
  - rewrite lookup_insert_ne by done. rewrite IH. split.
    + intros [(r' & Hr' & Hk' & Hd') Hle]. split.
      * exists r'. split; [by right|done].
      * intros r0 [->|Hr0]%elem_of_cons Hk0; [done|by apply Hle].
    + intros [(r' & [->|Hr']%elem_of_cons & Hk' & Hd') Hle]; [done|]. split.
      * by exists r'.
      * intros r0 Hr0. apply Hle. by right.
Qed.

Lemma groupby_date_max (rs : list Row) (k d : Z) :
  groupby_date Z.max rs !! k = Some d ↔
  (∃ r, r ∈ rs ∧ location_id r = k ∧ date r = d)
  ∧ (∀ r, r ∈ rs → location_id r = k → date r ≤ d).
Proof.
  revert d. induction rs as [|r rs IH]; intros d; simpl.
  { rewrite lookup_empty. split; [done|]. by intros [(r & ?%elem_of_nil & _) _]. }
  destruct (decide (location_id r = k)) as [Hk|Hk].
  - rewrite Hk, lookup_insert_eq.
    destruct (groupby_date Z.max rs !! k) as [d'|] eqn:Hd'.
    + specialize (IH d'). destruct (proj1 IH eq_refl) as [(r' & Hr' & Hk' & Hdate) Hle].
      split.
      * intros [= <-]. split.
        -- destruct (Z.max_spec (date r) d') as [[_ ->]|[_ ->]].
           ++ exists r'. split; [by right|done].
           ++ exists r. split; [left|done].
        -- intros r0 [->|Hr0]%elem_of_cons Hk0; [lia|].
           specialize (Hle r0 Hr0 Hk0). lia.
      * intros [(r0 & Hr0 & Hk0 & Hd0) Hmax]. f_equal.
        pose proof (Hmax r ltac:(left) Hk). pose proof (Hmax r' ltac:(by right) Hk').
        apply elem_of_cons in Hr0 as [->|Hr0]; [lia|].
        specialize (Hle r0 Hr0 Hk0). lia.
    + pose proof (proj1 (groupby_date_None _ _ _) Hd') as Hnone. split.
      * intros [= <-]. split; [exists r; split; [left|done]|].
        intros r0 [->|Hr0]%elem_of_cons Hk0; [lia|]. by destruct (Hnone r0 Hr0).
      * intros [(r0 & [->|Hr0]%elem_of_cons & Hk0 & Hd0) _]; [by f_equal|].
        by destruct (Hnone r0 Hr0).
  - rewrite lookup_insert_ne by done. rewrite IH. split.
    + intros [(r' & Hr' & Hk' & Hd') Hle]. split.
      * exists r'. split; [by right|done].
      * intros r0 [->|Hr0]%elem_of_cons Hk0; [done|by apply Hle].
    + intros [(r' & [->|Hr']%elem_of_cons & Hk' & Hd') Hle]; [done|]. split.
      * by exists r'.
      * intros r0 Hr0. apply Hle. by right.
Qed.

Lemma elem_of_items {A} (s : gmap Z A) (k : Z) (v : A) :
  (k, v) ∈ items s ↔ s !! k = Some v.
Proof. unfold items. by rewrite merge_sort_Permutation, elem_of_map_to_list. Qed.

Lemma lookup_series_sub (a b : gmap Z Z) (k : Z) :
  notnull (series_sub a b) !! k =
    match a !! k, b !! k with
    | Some x, Some y => Some (x - y)
    | _, _ => None
    end.
Proof.
  unfold notnull, series_sub. rewrite lookup_omap, lookup_merge.
  by destruct (a !! k), (b !! k).
Qed.

Lemma elem_of_nan_dates (T : list Row) (k d : Z) :
  d ∈ nan_dates T k ↔
  ∃ r, r ∈ T ∧ location_id r = k ∧ isnull_any r = true ∧ date r = d.
Proof.
  unfold nan_dates. rewrite list_elem_of_fmap. split.
  - intros (r & -> & [[Hk Hn] Hr]%list_elem_of_filter). by exists r.
  - intros (r & Hr & Hk & Hn & <-). exists r. split; [done|].
    by apply list_elem_of_filter.
Qed.

Lemma elem_of_value_dates (T : list Row) (k d : Z) :
  d ∈ value_dates T k ↔
  ∃ r, r ∈ T ∧ location_id r = k ∧ isnull_any r = false ∧ date r = d.
Proof.
  unfold value_dates. rewrite list_elem_of_fmap. split.
  - intros (r & -> & [[Hk Hn] Hr]%list_elem_of_filter). by exists r.
  - intros (r & Hr & Hk & Hn & <-). exists r. split; [done|].
    by apply list_elem_of_filter.
Qed.

Lemma nan_min_is_min (T : list Row) (k d : Z) :
  groupby_date Z.min (filter (λ r, isnull_any r = true) T) !! k = Some d ↔
  is_min d (nan_dates T k).
Proof.
  rewrite groupby_date_min. unfold is_min. rewrite elem_of_nan_dates. split.
  - intros [(r & [Hn Hr]%list_elem_of_filter & Hk & Hd) Hle]. split.
    + by exists r.
    + intros x (r' & Hr' & Hk' & Hn' & <-)%elem_of_nan_dates.
      apply Hle; [|done]. by apply list_elem_of_filter.
  - intros [(r & Hr & Hk & Hn & Hd) Hle]. split.
    + exists r. split; [by apply list_elem_of_filter|done].
    + intros r' [Hn' Hr']%list_elem_of_filter Hk'.
      apply Hle, elem_of_nan_dates. by exists r'.
Qed.

Lemma val_max_is_max (T : list Row) (k d : Z) :
  groupby_date Z.max (filter (λ r, isnull_any r = false) T) !! k = Some d ↔
  is_max d (value_dates T k).
Proof.
  rewrite groupby_date_max. unfold is_max. rewrite elem_of_value_dates. split.
  - intros [(r & [Hn Hr]%list_elem_of_filter & Hk & Hd) Hle]. split.
    + by exists r.
    + intros x (r' & Hr' & Hk' & Hn' & <-)%elem_of_value_dates.
      apply Hle; [|done]. by apply list_elem_of_filter.
  - intros [(r & Hr & Hk & Hn & Hd) Hle]. split.
    + exists r. split; [by apply list_elem_of_filter|done].
    + intros r' [Hn' Hr']%list_elem_of_filter Hk'.
      apply Hle, elem_of_value_dates. by exists r'.
Qed.

(** The differences the guard computes are the gaps of the specification. *)
Lemma date_diffs_gap (T : list Row) (k g : Z) :
  date_diffs T !! k = Some g ↔ gap T k g.
Proof.
  unfold date_diffs, gap. rewrite lookup_series_sub.
  rewrite compress_fmap, compress_fmap_negb.
  pose proof (nan_min_is_min T k) as Hmin. pose proof (val_max_is_max T k) as Hmax.
  destruct (groupby_date Z.min _ !! k) as [dn|], (groupby_date Z.max _ !! k) as [dv|].
  - split.
    + intros [= <-]. exists dn, dv. split; [by apply Hmin|]. split; [by apply Hmax|done].
    + intros (dn' & dv' & Hn%Hmin & Hv%Hmax & ->). by simplify_eq.
  - split; [done|]. by intros (dn' & dv' & _ & Hv%Hmax & _).
  - split; [done|]. by intros (dn' & dv' & Hn%Hmin & _).
  - split; [done|]. by intros (dn' & dv' & Hn%Hmin & _).
Qed.

Lemma date_diffs_None (T : list Row) (k : Z) :
  date_diffs T !! k = None ↔ nan_dates T k = [] ∨ value_dates T k = [].
Proof.
  destruct (date_diffs T !! k) as [g|] eqn:Hg.
  - apply date_diffs_gap in Hg as (dn & dv & [Hn _] & [Hv _] & _).
    split; [done|].
    intros [Hnil|Hnil]; rewrite Hnil in *; [by apply elem_of_nil in Hn|by apply elem_of_nil in Hv].
  - split; [|done]. intros _.
    revert Hg. unfold date_diffs.
    rewrite lookup_series_sub, compress_fmap, compress_fmap_negb.
    destruct (groupby_date Z.min _ !! k) as [dn|] eqn:Hn.
    + destruct (groupby_date Z.max _ !! k) as [dv|] eqn:Hv; [done|]. intros _. right.
      destruct (value_dates T k) as [|d l] eqn:Hd; [done|].
      assert (Hin : d ∈ value_dates T k) by (rewrite Hd; left).
      apply elem_of_value_dates in Hin as (r & Hr & Hk & Hnn & _).
      destruct (proj1 (groupby_date_None Z.max _ k) Hv r);
        [by apply list_elem_of_filter|done].
    + intros _. left.
      destruct (nan_dates T k) as [|d l] eqn:Hd; [done|].
      assert (Hin : d ∈ nan_dates T k) by (rewrite Hd; left).
      apply elem_of_nan_dates in Hin as (r & Hr & Hk & Hnn & _).
      destruct (proj1 (groupby_date_None Z.min _ k) Hn r);
        [by apply list_elem_of_filter|done].
Qed.

Lemma existsb_negative (s : gmap Z Z) :
  existsb (λ kv, bool_decide (kv.2 < 0)) (items s) = true ↔
  ∃ k g, s !! k = Some g ∧ g < 0.
Proof.
  rewrite existsb_exists. split.
  - intros ([k g] & Hin & Hg). exists k, g.
    apply list_elem_of_In, elem_of_items in Hin. split; [done|].
    by apply bool_decide_eq_true in Hg.
  - intros (k & g & Hk & Hg). exists (k, g). split.
    + by apply list_elem_of_In, elem_of_items.
    + by apply bool_decide_eq_true.
Qed.

Lemma filter_all_false (T : list Row) :
  filter (λ r, isnull_any r = true) T = [] →
  filter (λ r, isnull_any r = false) T = T.
Proof.
  induction T as [|r T IH]; [done|]. destruct (isnull_any r) eqn:Hr.
  - by rewrite filter_cons_True.
  - rewrite filter_cons_False by by rewrite Hr. intros HT.
    rewrite filter_cons_True by done. by rewrite IH.
Qed.

(** The outcome of the guard in terms of [date_diffs]. *)
Lemma continuity_guard_aborts (T : list Row) :
  aborts (continuity_guard T) ↔ ∃ k g, date_diffs T !! k = Some g ∧ g < 0.
Proof.
  unfold continuity_guard. rewrite compress_fmap.
  destruct (filter (λ r, isnull_any r = true) T) as [|r0 nans] eqn:Hnans.
  - simpl. split; [done|]. intros (k & g & Hk & _).
    apply date_diffs_gap in Hk as (dn & dv & [Hdn _] & _).
    apply elem_of_nan_dates in Hdn as (r & Hr & _ & Hn & _).
    assert (Hin : r ∈ filter (λ r, isnull_any r = true) T)
      by by apply list_elem_of_filter.
    rewrite Hnans in Hin. by apply elem_of_nil in Hin.
  - rewrite <- existsb_negative.
    by destruct (existsb _ _).
Qed.

Lemma continuity_guard_Continue (T W : list Row) (meta : list Z) :
  continuity_guard T = Continue W meta →
  W = filter (λ r, isnull_any r = false) T.
Proof.
  unfold continuity_guard. rewrite compress_fmap, compress_fmap_negb.
  destruct (filter (λ r, isnull_any r = true) T) as [|r0 nans] eqn:Hnans.
  - intros [= <- _]. symmetry. by apply filter_all_false.
  - destruct (existsb _ _); [done|]. by intros [= <- _].
Qed.

Lemma continuity_guard_passes (T : list Row) :
  (∀ k g, date_diffs T !! k = Some g → 0 ≤ g) →
  ∃ meta,
    continuity_guard T = Continue (filter (λ r, isnull_any r = false) T) meta.
Proof.
  intros Hall.
  destruct (continuity_guard T) as [W meta|meta report e] eqn:Hguard.
  - exists meta. by rewrite (continuity_guard_Continue T W meta Hguard).
  - assert (Hab : aborts (continuity_guard T)) by by rewrite Hguard.
    apply continuity_guard_aborts in Hab as (k & g & Hk & Hg).
    specialize (Hall k g Hk). lia.
Qed.

Lemma elem_of_nan_locations (T : list Row) (k : Z) :
  k ∈ nan_locations_of (continuity_guard T) → is_Some (date_diffs T !! k).
Proof.
  unfold continuity_guard. rewrite compress_fmap.
  destruct (filter (λ r, isnull_any r = true) T) as [|r0 nans] eqn:Hnans.
  - by intros ?%elem_of_nil.
  - intros Hin.
    assert (Hk : k ∈ (items (date_diffs T)).*1) by by destruct (existsb _ _).
    apply list_elem_of_fmap in Hk as ([k' g] & -> & Hk%elem_of_items). by exists g.
Qed.

(** ** C4 *)

(** C4.  Calling a row NaN when any of its cells is missing: the difference
    the guard computes for a location is the gap of the specification, the
    earliest NaN date minus the latest non-NaN date.  A location with a
    non-NaN row whose NaN rows are all dated after its latest non-NaN date has
    a positive gap, if any, and so does not stop the run; when every location
    is like that the run continues and exactly the NaN rows are dropped, as
    they are whenever the run continues.  One NaN row dated before a non-NaN
    row of the same location gives that location a negative gap and the run
    aborts; the run aborts exactly when some location has a negative gap. *)
Theorem continuity_check (T : list Row) :
  (∀ k g, date_diffs T !! k = Some g ↔ gap T k g)
  ∧ (∀ k, value_dates T k ≠ [] →
       (∀ dn dv, dn ∈ nan_dates T k → dv ∈ value_dates T k → dv < dn) →
       ∀ g, date_diffs T !! k = Some g → 0 < g)
  ∧ ((∀ k dn dv, dn ∈ nan_dates T k → dv ∈ value_dates T k → dv < dn) →
     ∃ meta,
       continuity_guard T = Continue (filter (λ r, isnull_any r = false) T) meta)
  ∧ (∀ W meta, continuity_guard T = Continue W meta →
       W = filter (λ r, isnull_any r = false) T)
  ∧ (∀ k dn dv, dn ∈ nan_dates T k → dv ∈ value_dates T k → dn < dv →
       (∃ g, date_diffs T !! k = Some g ∧ g < 0)
       ∧ aborts (continuity_guard T))
  ∧ (aborts (continuity_guard T) ↔ ∃ k g, date_diffs T !! k = Some g ∧ g < 0).
Proof.
  assert (Htrail : ∀ k,
            (∀ dn dv, dn ∈ nan_dates T k → dv ∈ value_dates T k → dv < dn) →
            ∀ g, date_diffs T !! k = Some g → 0 < g).
  { intros k Hk g (dn & dv & [Hdn _] & [Hdv _] & ->)%date_diffs_gap.
    specialize (Hk dn dv Hdn Hdv). lia. }
  split; [apply date_diffs_gap|].
  split; [intros k _; apply Htrail|].
  split.
  { intros Hall. apply continuity_guard_passes. intros k g Hg.
    specialize (Htrail k (Hall k) g Hg). lia. }
  split; [apply continuity_guard_Continue|].
  split; [|apply continuity_guard_aborts].
  intros k dn dv Hdn Hdv Hlt.
  assert (Hg : ∃ g, date_diffs T !! k = Some g ∧ g < 0).
  { destruct (date_diffs T !! k) as [g|] eqn:Hg.
    - exists g. split; [done|].
      apply date_diffs_gap in Hg as (dn' & dv' & [_ Hmin] & [_ Hmax] & ->).
      specialize (Hmin dn Hdn). specialize (Hmax dv Hdv). lia.
    - apply date_diffs_None in Hg as [Hnil|Hnil]; rewrite Hnil in *;
        [by apply elem_of_nil in Hdn|by apply elem_of_nil in Hdv]. }
  split; [done|]. apply continuity_guard_aborts.
  destruct Hg as [g Hg]. by exists k, g.
Qed.

Example continuity_guard_trailing :
  continuity_guard
    [mkRow 7 1 [of_Z 5; of_Z 6]; mkRow 7 2 [of_Z 7; nan]; mkRow 7 3 [nan; nan];
     mkRow 8 1 [of_Z 1; of_Z 1]]
  = Continue [mkRow 7 1 [of_Z 5; of_Z 6]; mkRow 8 1 [of_Z 1; of_Z 1]] [7].
Proof. reflexivity. Qed.

Example continuity_guard_interior :
  continuity_guard
    [mkRow 7 1 [of_Z 5]; mkRow 7 2 [nan]; mkRow 7 3 [of_Z 7];
     mkRow 8 1 [of_Z 1]; mkRow 8 2 [nan]]
  = Fatal [7; 8] [[-1]; [1]]
      (ValueError
         "Dropping NaNs in middle of time series (see problem_location_report.csv)").
Proof. reflexivity. Qed.

(** ** C5 *)

(** C5.  The report written before the error is raised is the series of
    differences saved with [index=False]: every record holds a gap and nothing
    else, so the location ids, which are the index of the series, are not in
    it.  Location 7 has an interior gap of -1 and location 8 a trailing NaN
    row: the report holds [-1] and [1], and only saving with the index would
    have held [(7, -1)] and [(8, 1)]. *)
Theorem report_omits_location_id :
  continuity_guard
    [mkRow 7 1 [of_Z 5]; mkRow 7 2 [nan]; mkRow 7 3 [of_Z 7];
     mkRow 8 1 [of_Z 1]; mkRow 8 2 [nan]]
  = Fatal [7; 8] [[-1]; [1]]
      (ValueError
         "Dropping NaNs in middle of time series (see problem_location_report.csv)")
  ∧ to_csv true
      (date_diffs
         [mkRow 7 1 [of_Z 5]; mkRow 7 2 [nan]; mkRow 7 3 [of_Z 7];
          mkRow 8 1 [of_Z 1]; mkRow 8 2 [nan]])
    = [[7; -1]; [8; 1]]
  ∧ (∀ T meta report e,
       continuity_guard T = Fatal meta report e →
       report = (λ kv, [kv.2]) <$> items (date_diffs T)).
Proof.
  split; [reflexivity|]. split; [reflexivity|].
  intros T meta report e. unfold continuity_guard.
  destruct (compress T (isnull_any <$> T)); [done|].
  destruct (existsb _ _); [|done]. by intros [= _ <- _].
Qed.

(** ** C10 *)

(** Taking the rows of a location without non-NaN rows out of the table
    leaves the differences as they are. *)
Lemma date_diffs_without (T : list Row) (k : Z) :
  (∀ r, r ∈ T → location_id r = k → isnull_any r = true) →
  date_diffs (filter (λ r, location_id r ≠ k) T) = date_diffs T.
Proof.
  intros Hall. set (T' := filter (λ r, location_id r ≠ k) T).
  assert (Hvk : ∀ d, d ∉ value_dates T k).
  { intros d (r & Hr & Hk & Hn & _)%elem_of_value_dates.
    specialize (Hall r Hr Hk). congruence. }
  assert (Hnk : ∀ d, d ∉ nan_dates T' k).
  { intros d (r & [Hne _]%list_elem_of_filter & Hk & _)%elem_of_nan_dates. done. }
  assert (Hn : ∀ j d, j ≠ k → d ∈ nan_dates T' j ↔ d ∈ nan_dates T j).
  { intros j d Hj. rewrite !elem_of_nan_dates. split.
    - intros (r & [_ Hr]%list_elem_of_filter & Hrest). by exists r.
    - intros (r & Hr & Hk & Hrest). exists r. split; [|done].
      apply list_elem_of_filter. split; [congruence|done]. }
  assert (Hv : ∀ j d, j ≠ k → d ∈ value_dates T' j ↔ d ∈ value_dates T j).
  { intros j d Hj. rewrite !elem_of_value_dates. split.
    - intros (r & [_ Hr]%list_elem_of_filter & Hrest). by exists r.
    - intros (r & Hr & Hk & Hrest). exists r. split; [|done].
      apply list_elem_of_filter. split; [congruence|done]. }
  apply map_eq. intros j. apply option_eq. intros g.
  rewrite !date_diffs_gap. unfold gap, is_min, is_max.
  destruct (decide (j = k)) as [->|Hj].
  - split.
    + intros (dn & dv & [Hdn _] & _). by destruct (Hnk dn).
    + intros (dn & dv & _ & [Hdv _] & _). by destruct (Hvk dv).
  - split; intros (dn & dv & [Hdn Hmin] & [Hdv Hmax] & ->); exists dn, dv.
    + split; [split; [by apply Hn|intros x Hx; by apply Hmin, Hn]|].
      split; [split; [by apply Hv|intros x Hx; by apply Hmax, Hv]|done].
    + split; [split; [by apply Hn|intros x Hx; by apply Hmin, Hn]|].
      split; [split; [by apply Hv|intros x Hx; by apply Hmax, Hv]|done].
Qed.

(** C10.  A location that has rows, every one of them NaN, has no difference
    computed for it: it is not in the recorded [nan_locations], whatever the
    outcome; when the run continues none of its rows is in the working set;
    and the run aborts with its rows in the table exactly when it aborts
    without them, so the location never is the reason of the error. *)
Theorem all_nan_location (T : list Row) (k : Z) :
  (∃ r, r ∈ T ∧ location_id r = k) →
  (∀ r, r ∈ T → location_id r = k → isnull_any r = true) →
  date_diffs T !! k = None
  ∧ (k ∉ nan_locations_of (continuity_guard T))
  ∧ (∀ W meta, continuity_guard T = Continue W meta →
       ∀ r, r ∈ W → location_id r ≠ k)
  ∧ (aborts (continuity_guard T) ↔
     aborts (continuity_guard (filter (λ r, location_id r ≠ k) T))).
Proof.
  intros Hex Hall.
  assert (Hnone : date_diffs T !! k = None).
  { apply date_diffs_None. right.
    destruct (value_dates T k) as [|d l] eqn:Hd; [done|].
    assert (Hin : d ∈ value_dates T k) by (rewrite Hd; left).
    apply elem_of_value_dates in Hin as (r & Hr & Hk & Hn & _).
    specialize (Hall r Hr Hk). congruence. }
  split; [done|]. split.
  { intros [g Hg]%elem_of_nan_locations. congruence. }
  split.
  { intros W meta ->%continuity_guard_Continue r [Hn Hr]%list_elem_of_filter Hk.
    specialize (Hall r Hr Hk). congruence. }
  by rewrite !continuity_guard_aborts, date_diffs_without.
Qed.

Lemma all_nan_location_witness :
  date_diffs
    [mkRow 7 1 [of_Z 5]; mkRow 7 2 [nan]; mkRow 9 1 [nan]; mkRow 9 2 [nan]] !! 9
  = None
  ∧ (9 ∉ nan_locations_of
           (continuity_guard
              [mkRow 7 1 [of_Z 5]; mkRow 7 2 [nan]; mkRow 9 1 [nan];
               mkRow 9 2 [nan]]))
  ∧ continuity_guard
      [mkRow 7 1 [of_Z 5]; mkRow 7 2 [nan]; mkRow 9 1 [nan]; mkRow 9 2 [nan]]
    = Continue [mkRow 7 1 [of_Z 5]] [7].
Proof.
  destruct (all_nan_location
              [mkRow 7 1 [of_Z 5]; mkRow 7 2 [nan]; mkRow 9 1 [nan];
               mkRow 9 2 [nan]] 9) as (Hnone & Hmeta & _).
  - exists (mkRow 9 1 [nan]). split; [|reflexivity]. do 2 right. left.
  - intros r Hr Hk. rewrite !elem_of_cons in Hr.
    destruct Hr as [->|[->|[->|[->|Hr]]]]; try done. by apply elem_of_nil in Hr.
  - split; [exact Hnone|]. split; [exact Hmeta|reflexivity].
Defined.

(** ** Daily increments *)

Global Instance key_le_trans : Transitive key_le.
Proof. intros a b c. unfold key_le. lia. Qed.

Global Instance key_le_total : Total key_le.
Proof. intros a b. unfold key_le. lia. Qed.



Lemma sub_0_r (x : float) : sub x (of_Z 0) = x.
Proof.
  destruct x as [q|]; [|done]. unfold sub, of_Z. f_equal.
  change (Q2Qc (inject_Z 0)) with 0%Qc. ring.
Qed.




(** ** C6 *)



(** ** C8 *)

Section PostModelAggregates.

Context {Hierarchy : Type}.
Variable compute_location_aggregates_data :
  DataFrame → Hierarchy → list Location → DataFrame.
Variable compute_location_aggregates_draws :
  DataFrame → Hierarchy → list Location → DataFrame.

(** C8.  Every row of the published aggregate tables carries the negation of
    the location id the aggregation gave it, and in the model-data table the
    name the aggregation gave it followed by [" (model aggregate)"]; cells and
    dates are passed on.  The locations declared to the aggregation are
    [Global] with id 1 followed by the aggregate locations of the hierarchy, so
    when the aggregation labels its rows with declared locations every
    published row has the negated id and the suffixed name of a declared
    location. *)
Theorem aggregate_labels (model_data smooth_draws : DataFrame)
    (hierarchy : Hierarchy) (agg_locations : list Location) :
  let declared := [mkLocation 1 "Global"] ++ agg_locations in
  let source_data :=
    compute_location_aggregates_data model_data hierarchy declared in
  let source_draws :=
    compute_location_aggregates_draws smooth_draws hierarchy declared in
  let published :=
    post_model_aggregates compute_location_aggregates_data
      compute_location_aggregates_draws model_data smooth_draws hierarchy
      agg_locations in
  df_index published.2
  = (λ k, mkKey (- key_location_id k)
                (key_location_name k +:+ " (model aggregate)") (key_Date k))
      <$> df_index source_data
  ∧ df_columns published.2 = df_columns source_data
  ∧ df_index published.1
    = (λ k, mkKey (- key_location_id k) (key_location_name k) (key_Date k))
        <$> df_index source_draws
  ∧ df_columns published.1 = df_columns source_draws
  ∧ ((∀ k, k ∈ df_index source_data →
        ∃ l, l ∈ declared ∧ key_location_id k = id l
             ∧ key_location_name k = name l) →
     ∀ k, k ∈ df_index published.2 →
       ∃ l, l ∈ declared ∧ key_location_id k = - id l
            ∧ key_location_name k = name l +:+ " (model aggregate)")
  ∧ ((∀ k, k ∈ df_index source_draws → ∃ l, l ∈ declared ∧ key_location_id k = id l) →
     ∀ k, k ∈ df_index published.1 →
       ∃ l, l ∈ declared ∧ key_location_id k = - id l).
Proof.
  intros declared source_data source_draws published.
  assert (Hdata : df_index published.2
    = (λ k, mkKey (- key_location_id k)
                  (key_location_name k +:+ " (model aggregate)") (key_Date k))
        <$> df_index source_data).
  { unfold published, post_model_aggregates, append_location_name,
      negate_location_id. simpl. by rewrite <- list_fmap_compose. }
  assert (Hdraws : df_index published.1
    = (λ k, mkKey (- key_location_id k) (key_location_name k) (key_Date k))
        <$> df_index source_draws) by done.
  split; [done|]. split; [done|]. split; [done|]. split; [done|]. split.
  - intros Hsrc k. rewrite Hdata.
    intros (k0 & -> & Hk0)%list_elem_of_fmap.
    destruct (Hsrc k0 Hk0) as (l & Hl & Hid & Hname).
    exists l. simpl. by rewrite Hid, Hname.
  - intros Hsrc k. rewrite Hdraws.
    intros (k0 & -> & Hk0)%list_elem_of_fmap.
    destruct (Hsrc k0 Hk0) as (l & Hl & Hid).
    exists l. simpl. by rewrite Hid.
Qed.

End PostModelAggregates.

Example aggregate_labels_toy :
  df_index
    (post_model_aggregates Toy.compute_location_aggregates
       Toy.compute_location_aggregates Toy.frame Toy.draws tt
       [mkLocation 102 "United States of America"]).2
  = [mkKey (-1) "Global (model aggregate)" 1;
     mkKey (-102) "United States of America (model aggregate)" 1].
Proof. reflexivity. Qed.

(** * Further properties of the code *)

(** ** Edge cases of the draw allocation *)

Lemma iteration_n_draws_negative (H n_draws : Z) :
  H < 0 →
  iteration_n_draws H n_draws
  = Raise (if decide (H = -1) then ZeroDivisionError else IndexError).
Proof.
  intros HH. unfold iteration_n_draws, int_truediv.
  destruct (decide (H = -1)) as [->|Hne]; [done|].
  destruct (decide (H + 1 = 0)) as [?|_]; [lia|]. cbn.
  unfold list_mul. by replace (Z.to_nat (H + 1)) with 0%nat by lia.
Qed.

Section AllocationEdges.

Context {RNG CfrSettings SmootherSettings : Type}.
Variable np_random_seed : Z → RNG.
Variable cfr_model :
  DataFrame → CfrSettings → RNG → result (DataFrame * RNG).
Variable synthesize_time_series :
  DataFrame → Z → Z → SmootherSettings → RNG →
  result ((DataFrame * DataFrame) * RNG).
Variable pd_merge_outer : DataFrame → DataFrame → result DataFrame.

(** X1.  Outside the range of C2: with [doy_holdouts = -1] line 102 divides by
    zero and with [doy_holdouts < -1] the list of line 102 is empty and line
    103 indexes it, so [run_models] raises [ZeroDivisionError], respectively
    [IndexError], before any model is run; with [doy_holdouts >= 0] the
    allocation succeeds for every draw budget, also zero and negative ones,
    has [doy_holdouts + 1] entries that sum to [n_draws], and for a budget
    that is not positive no entry is positive. *)
Theorem allocation_edges (H n_draws lid : Z) (data : DataFrame) (s : Settings) :
  let run :=
    run_models np_random_seed cfr_model synthesize_time_series pd_merge_outer
      lid data s H n_draws in
  (H = -1 → iteration_n_draws H n_draws = Raise ZeroDivisionError
            ∧ run = Raise ZeroDivisionError)
  ∧ (H < -1 → iteration_n_draws H n_draws = Raise IndexError
              ∧ run = Raise IndexError)
  ∧ (0 ≤ H → ∃ ds, iteration_n_draws H n_draws = Ok ds
                   ∧ length ds = Z.to_nat (H + 1)
                   ∧ total ds = n_draws
                   ∧ (n_draws ≤ 0 → Forall (λ d, d ≤ 0) ds)).
Proof.
  intros run. unfold run. rewrite run_models_on.
  split; [|split].
  - intros ->. by cbn.
  - intros HH. rewrite iteration_n_draws_negative by lia.
    by rewrite decide_False by lia.
  - intros HH. eexists. split; [by apply iteration_n_draws_closed|].
    split; [rewrite length_app, length_replicate; cbn; lia|].
    split.
    + rewrite total_app, total_replicate, Z2Nat.id by lia.
      generalize (n_draws ÷ (H + 1)). intros b. unfold total. cbn [foldr]. lia.
    + intros Hn.
      pose proof (Z.quot_opp_l n_draws (H + 1) ltac:(lia)) as Hopp.
      pose proof (Z.quot_pos (- n_draws) (H + 1) ltac:(lia) ltac:(lia)) as Hb.
      pose proof (Z.mul_quot_le (- n_draws) (H + 1) ltac:(lia) ltac:(lia)) as Hle.
      rewrite Hopp in Hb, Hle.
      revert Hb Hle. generalize (n_draws ÷ (H + 1)). intros b Hb Hle.
      apply Forall_app. split; [apply Forall_replicate; lia|].
      apply Forall_singleton. lia.
Qed.

End AllocationEdges.

(** ** Holdout depths add up *)

Lemma blank_blank (h1 h2 : nat) (d : list float) :
  blank h2 (blank h1 d) = blank (h1 + h2) d.
Proof.
  revert h1. induction d as [|x d IH] using rev_ind; intros h1; [done|].
  destruct x as [q|].
  - destruct h1 as [|h1].
    + by rewrite !blank_0.
    + rewrite blank_snoc_value. change (None : float) with nan.
      rewrite blank_snoc_nan, IH. cbn [Nat.add].
      by rewrite blank_snoc_value.
  - change (None : float) with nan. by rewrite !blank_snoc_nan, IH.
Qed.

(** X2.  Blanking to depth [h1] and then to depth [h2] an already blanked
    channel is blanking the original channel to depth [h1 + h2] (a depth that
    is not positive counts as zero), so two blankings commute. *)
Theorem drop_days_compose (data : list float) (h1 h2 : Z) :
  drop_days (drop_days data h1) h2 = drop_days data (Z.max 0 h1 + Z.max 0 h2)
  ∧ drop_days (drop_days data h1) h2 = drop_days (drop_days data h2) h1.
Proof.
  rewrite !drop_days_blank, !blank_blank. split; f_equal; lia.
Qed.

(** ** Selecting the rows of the location *)

Lemma compress_fmap_zip {A B} (f : A → bool) (idx : list A) (a : list B) :
  compress a (f <$> idx) = (filter (λ p, f p.1 = true) (zip idx a)).*2.
Proof.
  revert a. induction idx as [|k idx IH]; intros [|x a]; try done.
  cbn [fmap list_fmap compress zip zip_with]. rewrite filter_cons. cbn [fst].
  destruct (f k); rewrite IH; [case_decide; [done|congruence]|].
  case_decide; [congruence|done].
Qed.

Lemma df_getitem_loc_rows (mask : list bool) (c : string) (df : DataFrame) :
  df_getitem c (df_loc_rows mask df)
  = a ← df_getitem c df; mret (compress a mask).
Proof.
  unfold df_getitem, df_loc_rows. cbn [df_columns].
  induction (df_columns df) as [|[c' a] l IH]; [done|].
  rewrite fmap_cons. cbn [list_find prod_map fst snd]. unfold Datatypes.id at 1 2.
  destruct (decide (c' = c)); [done|].
  destruct (list_find _ (_ <$> l)) as [[i [c1 a1]]|],
           (list_find _ l) as [[j [c2 a2]]|]; cbn in *; congruence.
Qed.

(** X3.  Line 95 keeps exactly the rows of [location_id], in their order and
    with the cells they had in every column; the column labels stay, and a
    location without rows gives an empty frame. *)
Theorem select_location_rows (lid : Z) (data : DataFrame) :
  let out := select_location lid data in
  df_index out = filter (λ k, key_location_id k = lid) (df_index data)
  ∧ columns out = columns data
  ∧ (∀ c a, df_getitem c data = Ok a →
       df_getitem c out
       = Ok (filter (λ p, key_location_id p.1 = lid) (zip (df_index data) a)).*2)
  ∧ (∀ c e, df_getitem c data = Raise e → df_getitem c out = Raise e)
  ∧ ((∀ k, k ∈ df_index data → key_location_id k ≠ lid) → df_index out = []).
Proof.
  intros out. unfold out, select_location.
  assert (Hidx : df_index (df_loc_rows
                   ((λ k, bool_decide (key_location_id k = lid)) <$> df_index data)
                   data)
                 = filter (λ k, key_location_id k = lid) (df_index data)).
  { unfold df_loc_rows. cbn [df_index]. rewrite compress_fmap.
    apply list_filter_iff. intros k. by rewrite bool_decide_eq_true. }
  split; [done|]. split.
  { unfold columns, df_loc_rows. cbn [df_columns]. rewrite <- list_fmap_compose.
    apply list_fmap_ext. by intros _ [c a] _. }
  split.
  { intros c a Ha. rewrite df_getitem_loc_rows, Ha. cbn. f_equal.
    rewrite compress_fmap_zip. f_equal. apply list_filter_iff.
    intros [k x]. cbn. by rewrite bool_decide_eq_true. }
  split.
  { intros c e He. by rewrite df_getitem_loc_rows, He. }
  intros Hno. rewrite Hidx. clear Hidx out. induction (df_index data) as [|k l IH]; [done|].
  rewrite filter_cons_False by (apply Hno; left).
  apply IH. intros k' Hk'. apply Hno. by right.
Qed.

(** ** When the rescaling fails *)

Lemma result_mapM_Raise {A B} (f : A → result B) (l : list A) (e : exn) :
  mapM f l = Raise e → ∃ x, x ∈ l ∧ f x = Raise e.
Proof.
  induction l as [|x l IH]; [done|]. cbn.
  destruct (f x) as [v|e'] eqn:Hx; cbn.
  - destruct (mapM f l) as [vs|e'']; [done|]. cbn. intros [= ->].
    destruct IH as (y & Hy & Hfy); [done|]. exists y. split; [by right|done].
  - intros [= ->]. exists x. split; [left|done].
Qed.

Lemma df_getitem_Raise (c : string) (df : DataFrame) (e : exn) :
  df_getitem c df = Raise e → e = KeyError c.
Proof. unfold df_getitem. destruct (list_find _ _) as [[? []]|]; congruence. Qed.

(** X4.  The rescaling of lines 132-135 succeeds exactly when the table holds
    every draw column and a population column.  A draw column that is missing
    (a label of the smoothed table that the noisy table lacks, say) raises
    [KeyError] for a missing draw label; with all draw columns there, a
    missing population column raises [KeyError] for [population]. *)
Theorem rescale_errors (draw_cols : list string) (draws : DataFrame) :
  ((∃ out, rescale draw_cols draws = Ok out) ↔
   (∀ c, c ∈ draw_cols → ∃ a, df_getitem c draws = Ok a)
   ∧ ∃ p, df_getitem "population" draws = Ok p)
  ∧ (∀ c e, c ∈ draw_cols → df_getitem c draws = Raise e →
       ∃ c', c' ∈ draw_cols ∧ df_getitem c' draws = Raise (KeyError c')
             ∧ rescale draw_cols draws = Raise (KeyError c'))
  ∧ ((∀ c, c ∈ draw_cols → ∃ a, df_getitem c draws = Ok a) →
     ∀ e, df_getitem "population" draws = Raise e →
          rescale draw_cols draws = Raise (KeyError "population")).
Proof.
  split; [split|split].
  - intros [out Hout]. unfold rescale in Hout.
    destruct (mapM _ draw_cols) as [sel|e] eqn:Hsel; [|done]. cbn in Hout.
    destruct (df_getitem "population" draws) as [p|e] eqn:Hp; [|done].
    split; [|by exists p].
    intros c Hc. apply result_mapM_Ok in Hsel.
    apply list_elem_of_lookup in Hc as [i Hi].
    destruct (Forall2_lookup_l _ _ _ _ _ Hsel Hi) as (a & _ & Ha). by exists a.
  - intros [Hall Hp]. by apply rescale_total.
  - intros c e Hc He. unfold rescale.
    destruct (mapM _ draw_cols) as [sel|e'] eqn:Hsel.
    + apply result_mapM_Ok in Hsel.
      apply list_elem_of_lookup in Hc as [i Hi].
      destruct (Forall2_lookup_l _ _ _ _ _ Hsel Hi) as (a & _ & Ha). congruence.
    + apply result_mapM_Raise in Hsel as (c' & Hc' & He').
      pose proof (df_getitem_Raise _ _ _ He') as ->. by exists c'.
  - intros Hall e He. unfold rescale.
    destruct (mapM _ draw_cols) as [sel|e'] eqn:Hsel.
    + cbn. rewrite He. cbn. f_equal. by eapply df_getitem_Raise.
    + apply result_mapM_Raise in Hsel as (c' & Hc' & He').
      destruct (Hall c' Hc') as [a Ha]. congruence.
Qed.

(** ** The frame handed to the smoother *)

Lemma df_getitem_columns (c : string) (df : DataFrame) :
  (∃ a, df_getitem c df = Ok a) ↔ c ∈ columns df.
Proof.
  unfold df_getitem, columns. split.
  - intros [a Ha]. destruct (list_find _ _) as [[i [c' a']]|] eqn:Hf; [|done].
    apply list_find_Some in Hf as (Hi & Hc & _). cbn in Hc. subst c'.
    apply list_elem_of_fmap. exists (c, a'). split; [done|].
    by eapply list_elem_of_lookup_2.
  - intros ([c' a] & -> & Hin)%list_elem_of_fmap.
    destruct (list_find (λ p, p.1 = (c', a).1) (df_columns df))
      as [[i [c1 a1]]|] eqn:Hf; [by exists a1|].
    eapply list_find_None, Forall_forall in Hf; [|done]. done.
Qed.

Lemma df_getitem_missing (c : string) (df : DataFrame) :
  c ∉ columns df ↔ df_getitem c df = Raise (KeyError c).
Proof.
  rewrite <- df_getitem_columns. split.
  - intros Hno. destruct (df_getitem c df) as [a|e] eqn:Ha.
    + destruct Hno. by exists a.
    + f_equal. by eapply df_getitem_Raise.
  - intros He [a Ha]. congruence.
Qed.

Lemma df_setitem_fresh (c : string) (a : list float) (df : DataFrame) :
  c ∉ columns df →
  df_setitem c a df = mkDF (df_index df) (df_columns df ++ [(c, a)]).
Proof.
  intros Hc. unfold df_setitem.
  destruct (list_find _ _) as [[i [c' a']]|] eqn:Hf; [|done].
  destruct Hc. apply df_getitem_columns. exists a'. unfold df_getitem.
  by rewrite Hf.
Qed.

Lemma df_getitem_setitem_eq (c : string) (a : list float) (df : DataFrame) :
  df_getitem c (df_setitem c a df) = Ok a.
Proof.
  destruct (df_getitem c df) as [b|e] eqn:Hb.
  - by eapply df_getitem_setitem.
  - apply df_getitem_Raise in Hb as Heq. subst e.
    apply df_getitem_missing in Hb. rewrite df_setitem_fresh by done.
    unfold df_getitem. cbn [df_columns].
    destruct (list_find _ _) as [[i [c' a']]|] eqn:Hf.
    + apply list_find_Some in Hf as (Hi & Hc & Hlt). cbn in Hc. subst c'.
      apply lookup_app_Some in Hi as [Hi|[_ Hi]].
      * destruct Hb. apply list_elem_of_fmap. exists (c, a').
        split; [done|]. by eapply list_elem_of_lookup_2.
      * apply list_lookup_singleton_Some in Hi as [_ Hi]. congruence.
    + eapply list_find_None, Forall_forall in Hf; [|apply elem_of_app; right; left].
      done.
Qed.

Lemma df_getitem_setitem_other (c c' : string) (a : list float) (df : DataFrame) :
  c ≠ c' → df_getitem c' (df_setitem c a df) = df_getitem c' df.
Proof.
  intros Hne. destruct (df_getitem c df) as [b|e] eqn:Hb.
  - by eapply df_getitem_setitem_ne.
  - apply df_getitem_Raise in Hb as Heq. subst e.
    apply df_getitem_missing in Hb. rewrite df_setitem_fresh by done.
    unfold df_getitem. cbn [df_columns].
    induction (df_columns df) as [|[c1 a1] l IH].
    + cbn. by case_decide.
    + cbn [app list_find fst]. destruct (decide (c1 = c')); [done|].
      cbn [fst] in IH.
      destruct (list_find _ (l ++ _)) as [[i [c2 a2]]|],
               (list_find _ l) as [[j [c3 a3]]|]; cbn in *; congruence.
Qed.

Lemma columns_df_setitem_fresh (c : string) (a : list float) (df : DataFrame) :
  c ∉ columns df → columns (df_setitem c a df) = columns df ++ [c].
Proof.
  intros Hc. rewrite df_setitem_fresh by done. unfold columns. cbn [df_columns].
  by rewrite fmap_app.
Qed.

(** [df.loc[:, cs]] when it succeeds. *)
Lemma df_loc_cols_Ok (cs : list string) (df out : DataFrame) :
  df_loc_cols cs df = Ok out →
  df_index out = df_index df
  ∧ columns out = filter (λ c, c ∉ key_labels) cs
  ∧ (∀ c, c ∈ cs → c ∉ key_labels → df_getitem c out = df_getitem c df).
Proof.
  unfold df_loc_cols. intros Hout.
  destruct (mapM _ _) as [arrays|e] eqn:Harr; [|done].
  cbn in Hout. injection Hout as <-. cbn [df_index].
  apply result_mapM_Ok in Harr.
  assert (Hpair : Forall2 (λ c p, p.1 = c ∧ df_getitem c df = Ok p.2)
                          (filter (λ c, c ∉ key_labels) cs) arrays).
  { eapply Forall2_impl; [done|]. intros c p Hp. cbn in Hp.
    destruct (df_getitem c df) as [a|e]; [|done]. cbn in Hp.
    by injection Hp as <-. }
  clear Harr. split; [done|]. split.
  { unfold columns. cbn [df_columns]. symmetry.
    induction Hpair as [|c p l k [Hc _] _ IH]; [done|].
    rewrite fmap_cons. by f_equal. }
  intros c Hc Hkey.
  assert (Hin : c ∈ filter (λ c, c ∉ key_labels) cs)
    by by apply list_elem_of_filter.
  revert Hpair Hin. generalize (filter (λ c, c ∉ key_labels) cs) as l0.
  intros l0 Hpair Hin.
  induction Hpair as [|c1 p l k [Hc1 Hget] _ IH]; [by apply elem_of_nil in Hin|].
  unfold df_getitem at 1. cbn [df_columns list_find].
  destruct (decide (p.1 = c)) as [Heq|Hne].
  - destruct p as [c2 a]. simpl in Heq, Hc1, Hget. subst. by rewrite Hget.
  - apply elem_of_cons in Hin as [->|Hin]; [done|].
    specialize (IH Hin).
    unfold df_getitem at 1 in IH. cbn [df_columns] in IH.
    destruct (list_find _ k) as [[i [c2 a2]]|]; exact IH.
Qed.

Lemma df_loc_cols_total (cs : list string) (df : DataFrame) :
  (∀ c, c ∈ cs → c ∉ key_labels → c ∈ columns df) →
  ∃ out, df_loc_cols cs df = Ok out.
Proof.
  intros Hall. unfold df_loc_cols.
  destruct (mapM _ _) as [arrays|e] eqn:Harr; [by eexists|].
  apply result_mapM_Raise in Harr as (c & [Hkey Hc]%list_elem_of_filter & He).
  destruct (proj2 (df_getitem_columns c df) (Hall c Hc Hkey)) as [a Ha].
  rewrite Ha in He. done.
Qed.


Lemma fill_missing_fold (cs : list string) (df : DataFrame) :
  let out :=
    foldl (λ df col,
             if decide (col ∈ key_labels ++ columns df) then df
             else df_setitem col (replicate (nrows df) nan) df)
          df cs in
  df_index out = df_index df
  ∧ (∀ c a, df_getitem c df = Ok a → df_getitem c out = Ok a)
  ∧ (∀ c, c ∈ cs → c ∉ key_labels → c ∉ columns df →
       df_getitem c out = Ok (replicate (nrows df) nan)).
Proof.
  revert df. induction cs as [|col cs IH]; intros df out.
  { split; [done|]. split; [done|]. intros c Hc. by apply elem_of_nil in Hc. }
  unfold out. cbn [foldl].
  set (df1 := if decide (col ∈ key_labels ++ columns df) then df
              else df_setitem col (replicate (nrows df) nan) df).
  destruct (IH df1) as (Hidx & Hkeep & Hnew).
  assert (Hidx1 : df_index df1 = df_index df).
  { unfold df1. case_decide; [done|]. apply df_index_setitem. }
  assert (Hkeep1 : ∀ c a, df_getitem c df = Ok a → df_getitem c df1 = Ok a).
  { intros c a Ha. unfold df1. case_decide as Hcol; [done|].
    rewrite df_getitem_setitem_other; [done|]. intros ->.
    apply Hcol, elem_of_app. right. apply df_getitem_columns. by exists a. }
  split; [by rewrite Hidx|]. split; [intros c a Ha; by apply Hkeep, Hkeep1|].
  intros c Hc Hkey Hmiss.
  destruct (decide (c = col)) as [->|Hne].
  - apply Hkeep. unfold df1. rewrite decide_False.
    + apply df_getitem_setitem_eq.
    + intros [?|?]%elem_of_app; done.
  - apply elem_of_cons in Hc as [?|Hc]; [done|].
    replace (nrows df) with (nrows df1) by (unfold nrows; by rewrite Hidx1).
    apply Hnew; [done..|].
    unfold df1. case_decide as Hcol; [done|].
    rewrite columns_df_setitem_fresh.
    + intros [?|?%list_elem_of_singleton]%elem_of_app; done.
    + intros Hin. apply Hcol, elem_of_app. by right.
Qed.

Lemma fill_missing_spec (df : DataFrame) :
  df_index (fill_missing df) = df_index df
  ∧ (∀ c a, df_getitem c df = Ok a → df_getitem c (fill_missing df) = Ok a)
  ∧ (∀ c, c ∈ keep_cols → c ∉ key_labels → c ∉ columns df →
       df_getitem c (fill_missing df) = Ok (replicate (nrows df) nan)).
Proof. exact (fill_missing_fold keep_cols df). Qed.

(** X5.  Whatever frame the first-stage models leave, lines 62-65 succeed: the
    frame handed to the smoother has the rows of that frame and exactly the
    six value columns of [keep_cols], in that order; a column the frame had
    keeps its cells, a column it lacked is all NaN, and every other column of
    the frame is dropped. *)
Theorem fill_missing_total (df : DataFrame) :
  ∃ input,
    df_loc_cols keep_cols (fill_missing df) = Ok input
    ∧ df_index input = df_index df
    ∧ columns input
      = ["Confirmed case rate"; "Hospitalization rate"; "Death rate";
         "Predicted death rate (CFR)"; "Predicted death rate (HFR)";
         "population"]
    ∧ (∀ c a, c ∈ columns input → df_getitem c df = Ok a →
         df_getitem c input = Ok a)
    ∧ (∀ c, c ∈ columns input → c ∉ columns df →
         df_getitem c input = Ok (replicate (nrows df) nan)).
Proof.
  destruct (fill_missing_spec df) as (Hidx & Hkeep & Hnew).
  destruct (df_loc_cols_total keep_cols (fill_missing df)) as [input Hin].
  { intros c Hc Hkey. apply df_getitem_columns.
    destruct (decide (c ∈ columns df)) as [[a Ha]%df_getitem_columns|Hno].
    - exists a. by apply Hkeep.
    - eexists. by apply Hnew. }
  exists input. split; [done|].
  apply df_loc_cols_Ok in Hin as (Hidx' & Hcols & Hget).
  split; [by rewrite Hidx'|]. split; [by rewrite Hcols|].
  assert (Hsub : ∀ c, c ∈ columns input → c ∈ keep_cols ∧ c ∉ key_labels).
  { intros c. rewrite Hcols. intros [? ?]%list_elem_of_filter. done. }
  split.
  - intros c a [Hc Hkey]%Hsub Ha. rewrite Hget by done. by apply Hkeep.
  - intros c [Hc Hkey]%Hsub Hno. rewrite Hget by done. by apply Hnew.
Qed.

Section SmootherInput.

Context {RNG CfrSettings SmootherSettings : Type}.
Variable np_random_seed : Z → RNG.
Variable cfr_model :
  DataFrame → CfrSettings → RNG → result (DataFrame * RNG).
Variable synthesize_time_series :
  DataFrame → Z → Z → SmootherSettings → RNG →
  result ((DataFrame * DataFrame) * RNG).
Variable pd_merge_outer : DataFrame → DataFrame → result DataFrame.

Lemma fill_missing_unfold (df : DataFrame) :
  fill_missing df
  = foldl (λ df col,
             if decide (col ∈ key_labels ++ columns df) then df
             else df_setitem col (replicate (nrows df) nan) df)
          df keep_cols.
Proof. reflexivity. Qed.

(** Lines 59-72 behind whatever the first stage left. *)
Lemma stages_tail (lid : Z) (df : DataFrame) (s : Settings) (h d : Z)
    (g g' : RNG) (res : RESULTS) :
  stages cfr_model synthesize_time_series pd_merge_outer lid df s h d g
    = Ok (res, g') →
  ∃ merged g0 input,
    df_loc_cols keep_cols (fill_missing merged) = Ok input
    ∧ synthesize_time_series input h d (smoother s) g0
      = Ok ((noisy_draws res, smooth_draws res), g')
    ∧ model_data res
      = df_setitem "doy_holdout" (replicate (nrows input) (of_Z h)) input.
Proof.
  unfold stages, mbind, ST_bind, mret, ST_ret, lift.
  intros Hst.
  repeat (case_match; try done); simplify_eq.
  all: match goal with
       | Hin : df_loc_cols keep_cols _ = Ok ?input,
         Hsyn : synthesize_time_series ?input _ _ _ ?g0 = Ok (?p, _) |- _ =>
           rewrite <- fill_missing_unfold in Hin;
           eexists _, g0, input; split; [exact Hin|];
           split; [destruct p; exact Hsyn|reflexivity]
       end.
Qed.

Lemma stages_schema (lid : Z) (df : DataFrame) (s : Settings) (h d : Z)
    (g g' : RNG) (res : RESULTS) :
  stages cfr_model synthesize_time_series pd_merge_outer lid df s h d g
    = Ok (res, g') →
  columns (model_data res)
  = ["Confirmed case rate"; "Hospitalization rate"; "Death rate";
     "Predicted death rate (CFR)"; "Predicted death rate (HFR)";
     "population"; "doy_holdout"]
  ∧ df_getitem "doy_holdout" (model_data res)
    = Ok (replicate (nrows (model_data res)) (of_Z h))
  ∧ ∃ input g0,
      synthesize_time_series input h d (smoother s) g0
      = Ok ((noisy_draws res, smooth_draws res), g')
      ∧ columns input
        = ["Confirmed case rate"; "Hospitalization rate"; "Death rate";
           "Predicted death rate (CFR)"; "Predicted death rate (HFR)";
           "population"]
      ∧ df_index input = df_index (model_data res)
      ∧ (∀ c, c ≠ "doy_holdout" →
           df_getitem c (model_data res) = df_getitem c input).
Proof.
  intros (merged & g0 & input & Hin & Hsyn & ->)%stages_tail.
  apply df_loc_cols_Ok in Hin as (_ & Hcols & _).
  assert (Hcols' : columns input
                   = ["Confirmed case rate"; "Hospitalization rate";
                      "Death rate"; "Predicted death rate (CFR)";
                      "Predicted death rate (HFR)"; "population"])
    by by rewrite Hcols.
  assert (Hno : "doy_holdout" ∉ columns input).
  { rewrite Hcols'. compute_done. }
  split; [by rewrite columns_df_setitem_fresh, Hcols'|].
  split.
  { rewrite df_getitem_setitem_eq. unfold nrows. by rewrite df_index_setitem. }
  exists input, g0. split; [done|]. split; [done|].
  split; [by rewrite df_index_setitem|].
  intros c Hc. by apply df_getitem_setitem_other.
Qed.

(** X6.  Whichever first-stage models ran, an iteration that returns has
    handed the smoother a frame with exactly the six value columns of
    [keep_cols], and the [model_data] it returns is that frame with one more
    column, [doy_holdout], which holds the depth of the iteration in every
    row; the draws it returns are the ones the smoother gave for that frame,
    the depth and the draw count of the iteration. *)
Theorem iteration_schema (lid : Z) (l : loc) (s : Settings) (h d : Z)
    (σ σ' : state) (df : DataFrame) (res : RESULTS) :
  heap σ !! l = Some df →
  model_iteration cfr_model synthesize_time_series pd_merge_outer
    lid l s h d σ = Ok (res, σ') →
  columns (model_data res)
  = ["Confirmed case rate"; "Hospitalization rate"; "Death rate";
     "Predicted death rate (CFR)"; "Predicted death rate (HFR)";
     "population"; "doy_holdout"]
  ∧ df_getitem "doy_holdout" (model_data res)
    = Ok (replicate (nrows (model_data res)) (of_Z h))
  ∧ ∃ input g0,
      synthesize_time_series input h d (smoother s) g0
      = Ok ((noisy_draws res, smooth_draws res), rng σ')
      ∧ columns input
        = ["Confirmed case rate"; "Hospitalization rate"; "Death rate";
           "Predicted death rate (CFR)"; "Predicted death rate (HFR)";
           "population"]
      ∧ df_index input = df_index (model_data res)
      ∧ (∀ c, c ≠ "doy_holdout" →
           df_getitem c (model_data res) = df_getitem c input).
Proof.
  intros Hl Hrun.
  pose proof (model_iteration_on cfr_model synthesize_time_series
                pd_merge_outer lid l s h d σ df Hl) as Hon.
  rewrite Hrun in Hon. destruct Hon as [Hon _].
  unfold iteration_on, mbind, ST_bind, lift in Hon.
  destruct (blanked_input df h) as [blanked|e]; [|done].
  by eapply stages_schema.
Qed.

(** X7.  For a location that is in both [no_cases_locs] and [no_hosp_locs] no
    first-stage model is called: the smoother is called with the generator
    the iteration started with, on the frame left by the blanking reduced to
    the six value columns of [keep_cols], where a column that frame lacks
    (the two predicted death rates, for the frame [make_deaths] pickles) is
    all NaN; the iteration raises exactly when the smoother does. *)
Theorem stages_skip_both (lid : Z) (df : DataFrame) (s : Settings) (h d : Z)
    (g : RNG) :
  lid ∈ no_cases_locs s → lid ∈ no_hosp_locs s →
  ∃ input,
    df_loc_cols keep_cols (fill_missing df) = Ok input
    ∧ (∀ c, c ∈ columns input → c ∉ columns df →
         df_getitem c input = Ok (replicate (nrows df) nan))
    ∧ stages cfr_model synthesize_time_series pd_merge_outer lid df s h d g
      = match synthesize_time_series input h d (smoother s) g with
        | Ok (draws, g') =>
            Ok (mkRESULTS
                  (df_setitem "doy_holdout"
                     (replicate (nrows input) (of_Z h)) input)
                  draws.1 draws.2, g')
        | Raise e => Raise e
        end.
Proof.
  intros Hc Hh.
  destruct (fill_missing_spec df) as (Hidx & Hkeep & Hnew).
  destruct (df_loc_cols_total keep_cols (fill_missing df)) as [input Hin].
  { intros c Hc' Hkey. apply df_getitem_columns.
    destruct (decide (c ∈ columns df)) as [[a Ha]%df_getitem_columns|Hno].
    - exists a. by apply Hkeep.
    - eexists. by apply Hnew. }
  exists input. split; [done|].
  pose proof Hin as Hin'.
  apply df_loc_cols_Ok in Hin' as (Hidx' & Hcols & Hget).
  assert (Hsub : ∀ c, c ∈ columns input → c ∈ keep_cols ∧ c ∉ key_labels).
  { intros c. rewrite Hcols. intros [? ?]%list_elem_of_filter. done. }
  split. { intros c [? ?]%Hsub Hno. rewrite Hget by done. by apply Hnew. }
  unfold stages, mbind, ST_bind, mret, ST_ret, lift.
  destruct (decide (lid ∈ no_cases_locs s)) as [_|?]; [|done].
  destruct (decide (lid ∈ no_hosp_locs s)) as [_|?]; [|done].
  cbn [app]. rewrite <- fill_missing_unfold, Hin. by destruct (synthesize_time_series _ _ _ _ _) as [[[] ?]|].
Qed.

(** X8.  [run_models] returns only for [doy_holdouts >= 0], and the
    [model_data] it pickles is the one of the first iteration, the one without
    holdout: it has the six value columns of [keep_cols] and the column
    [doy_holdout], which is 0 in every row. *)
Theorem run_models_model_data (lid : Z) (data : DataFrame) (s : Settings)
    (H n_draws : Z) (r : RESULTS) :
  run_models np_random_seed cfr_model synthesize_time_series pd_merge_outer
    lid data s H n_draws = Ok r →
  0 ≤ H
  ∧ columns (model_data r)
    = ["Confirmed case rate"; "Hospitalization rate"; "Death rate";
       "Predicted death rate (CFR)"; "Predicted death rate (HFR)";
       "population"; "doy_holdout"]
  ∧ df_getitem "doy_holdout" (model_data r)
    = Ok (replicate (nrows (model_data r)) (of_Z 0)).
Proof.
  rewrite run_models_on. intros Hrun.
  destruct (decide (0 ≤ H)) as [HH|HH].
  2:{ by rewrite iteration_n_draws_negative in Hrun by lia. }
  split; [done|].
  rewrite iteration_n_draws_closed in Hrun by done. cbn in Hrun.
  unfold np_arange in Hrun. rewrite seqZ_cons in Hrun by lia.
  set (ds := replicate (Z.to_nat H) _ ++ _) in Hrun.
  assert (Hds : ∃ d0 ds', ds = d0 :: ds').
  { unfold ds. destruct (Z.to_nat H); cbn; eauto. }
  destruct Hds as (d0 & ds' & Hds). rewrite Hds in Hrun.
  cbn [zip zip_with] in Hrun. unfold ensemble_on in Hrun.
  rewrite ST_mapM_cons in Hrun. cbn [fst snd] in Hrun.
  destruct (iteration_on _ _ _ _ _ _ 0 d0 _) as [[first g1]|e] eqn:Hfirst;
    [|done].
  destruct (mapM (M := ST _) _ _ g1) as [[rest g2]|e]; [|done].
  apply assemble_Ok in Hrun as (first' & rest' & _ & _ & [= <- <-] & -> & _).
  unfold iteration_on, mbind, ST_bind, lift in Hfirst.
  destruct (blanked_input _ 0) as [blanked|e]; [|done].
  apply stages_schema in Hfirst as (Hcols & Hdepth & _). done.
Qed.

End SmootherInput.
